(** * FaceReader, [expr/feature.py]: Gabor filter banks, spatial histograms
      and the Gabor + Fisherfaces pipeline

    A shallow embedding of the feature operators of [expr/feature.py] and
    the properties its specification states about them.

    - Python objects live in a heap of attribute dictionaries; methods are
      computations in a state-and-exception monad over that heap, so that
      attribute rebinding ([gabor.filter = gabor.raw_convolve]) and the
      sharing of the [_gabor] and [_fisher] objects are modelled as the
      interpreter performs them.
    - Array entries are reals extended with the IEEE special values. The
      arithmetic of the reductions is exact and division by zero yields
      NaN or an infinity; every store into an array of [np.float32]
      rounds to the nearest binary32 number, ties to even, or overflows
      to an infinity.
    - The angles that drive [np.arange] in [GaborFilterCv2.build_filters]
      are binary64 numbers, because there the rounding decides how often
      the loop runs.
    - The numeric primitives of scikit-image, SciPy and OpenCV are section
      variables. *)

From Stdlib Require Import Floats.
From Stdlib Require Import ZArith List Reals Lra Lia String.
From stdpp Require Import base option list gmap strings.

Set Default Proof Using "Type".
#[local] Set Warnings "-inexact-float".

(* ================================================================= *)
(** * The Python runtime: exceptions, heap, attribute access *)

Module Py.

(** The exceptions that the modelled code can raise or let through. *)
Inductive exn : Type :=
| AttributeError (attr : string)
| TypeError (what : string)
| ValueError (what : string)
| ZeroDivisionError
| NotFittedError
| PrimitiveError (what : string).

Inductive result (A : Type) : Type :=
| Ok (a : A)
| Raise (e : exn).
Arguments Ok {A} a.
Arguments Raise {A} e.

Definition is_ok {A} (r : result A) : bool :=
  match r with Ok _ => true | Raise _ => false end.

(** Sequencing of calls that may raise. *)
Definition and_then {A B} (r : result A) (k : A -> result B) : result B :=
  match r with Ok a => k a | Raise e => Raise e end.

(** A loop that collects one result per element and stops at the first
    exception. *)
Fixpoint collect {A B} (f : A -> result B) (l : list A) : result (list B) :=
  match l with
  | [] => Ok []
  | a :: l' =>
      and_then (f a) (fun b =>
      and_then (collect f l') (fun bs => Ok (b :: bs)))
  end.

End Py.
Export Py.

(* ================================================================= *)
(** * Array entries: reals with the IEEE special values *)

Module Num.

Local Open Scope R_scope.

Inductive fval : Type :=
| Fin (r : R)
| PInf
| NInf
| NaN.

Definition is_finite (a : fval) : bool :=
  match a with Fin _ => true | _ => false end.

Definition fzero : fval := Fin 0.

Definition fneg (a : fval) : fval :=
  match a with
  | Fin x => Fin (- x)
  | PInf => NInf
  | NInf => PInf
  | NaN => NaN
  end.

Definition fadd (a b : fval) : fval :=
  match a, b with
  | Fin x, Fin y => Fin (x + y)
  | NaN, _ | _, NaN => NaN
  | PInf, NInf | NInf, PInf => NaN
  | PInf, _ | _, PInf => PInf
  | NInf, _ | _, NInf => NInf
  end.

Definition fsub (a b : fval) : fval := fadd a (fneg b).

(** The infinity whose sign is that of [x] times [pos]; zero times an
    infinity is NaN. *)
Definition inf_signed (pos : bool) (x : R) : fval :=
  if Req_EM_T x 0 then NaN
  else if Rlt_dec 0 x then (if pos then PInf else NInf)
       else (if pos then NInf else PInf).

Definition fmul (a b : fval) : fval :=
  match a, b with
  | Fin x, Fin y => Fin (x * y)
  | NaN, _ | _, NaN => NaN
  | PInf, Fin y | Fin y, PInf => inf_signed true y
  | NInf, Fin y | Fin y, NInf => inf_signed false y
  | PInf, PInf | NInf, NInf => PInf
  | PInf, NInf | NInf, PInf => NInf
  end.

(** Division; the divisors that occur here (a count, a standard deviation)
    are never the negative zero, so [x / 0] takes the sign of [x]. *)
Definition fdiv (a b : fval) : fval :=
  match a, b with
  | Fin x, Fin y =>
      if Req_EM_T y 0 then
        (if Req_EM_T x 0 then NaN
         else if Rlt_dec 0 x then PInf else NInf)
      else Fin (x / y)
  | NaN, _ | _, NaN => NaN
  | Fin _, (PInf | NInf) => Fin 0
  | (PInf | NInf), (PInf | NInf) => NaN
  | PInf, Fin y => if Rlt_dec y 0 then NInf else PInf
  | NInf, Fin y => if Rlt_dec y 0 then PInf else NInf
  end.

Definition fsqrt (a : fval) : fval :=
  match a with
  | Fin x => if Rlt_dec x 0 then NaN else Fin (sqrt x)
  | PInf => PInf
  | NInf | NaN => NaN
  end.

(** [abs(v)**2] on a real array entry. *)
Definition fsqr (a : fval) : fval := fmul a a.

Definition vector := list fval.
Definition matrix := list vector.
Definition tensor := list matrix.

(** ** numpy reductions *)

Definition fsum (v : vector) : fval := fold_right fadd fzero v.

(** [a.mean()] of a one-dimensional array; the mean of an empty array is
    NaN ([0.0 / 0]). *)
Definition np_mean (v : vector) : fval :=
  fdiv (fsum v) (Fin (INR (length v))).

(** [a.var()]: the mean of the squared deviations from the mean. *)
Definition np_var (v : vector) : fval :=
  np_mean (map (fun x => fsqr (fsub x (np_mean v))) v).

Definition np_std (v : vector) : fval := fsqrt (np_var v).

(** The [mode] argument of [scipy.ndimage.convolve]. *)
Inductive boundary : Type := Wrap | Reflect.

(** The arrays a filter method returns: two- or three-dimensional. *)
Inductive ndarray : Type :=
| Arr1 (v : vector)
| Arr2 (m : matrix)
| Arr3 (t : tensor).

(** Reductions of a two-dimensional array run over all of its entries. *)
Definition flat (m : matrix) : vector := concat m.
Definition mean2 (m : matrix) : fval := np_mean (flat m).
Definition var2 (m : matrix) : fval := np_var (flat m).

(** [np.zeros((h, w))]. *)
Definition zeros2 (h w : nat) : matrix := repeat (repeat fzero w) h.

(** Modelled from the spec: [normalization.zscore] of
    [facerec_py/facerec/normalization.py], which is not among the sources.
    The specification lists it as the "Z-score normalization utility:
    zscore(vector) -> normalized vector" and notes that no zero-variance
    policy is defined: each entry has the mean subtracted and is divided
    by the standard deviation. *)
Definition zscore (X : vector) : vector :=
  let mean := np_mean X in
  let std := np_std X in
  map (fun x => fdiv (fsub x mean) std) X.

(** ** The same statistics on finite data *)

Definition rsum (l : list R) : R := fold_right Rplus 0 l.
Definition rmean (l : list R) : R := rsum l / INR (length l).
Definition rvar (l : list R) : R :=
  rmean (map (fun x => (x - rmean l) * (x - rmean l)) l).
Definition rstd (l : list R) : R := sqrt (rvar l).

(** ** Facts about the arithmetic *)

Lemma fdiv_Fin (x y : R) : y <> 0 -> fdiv (Fin x) (Fin y) = Fin (x / y).
Proof. intros Hy. simpl. destruct (Req_EM_T y 0); [contradiction | reflexivity]. Qed.

Lemma fdiv_zero_zero : fdiv (Fin 0) (Fin 0) = NaN.
Proof.
  simpl. destruct (Req_EM_T 0 0) as [_ | H]; [| now elim H].
  reflexivity.
Qed.

Lemma fdiv_NaN_l (b : fval) : fdiv NaN b = NaN.
Proof. destruct b; reflexivity. Qed.

Lemma fsqrt_Fin (x : R) : 0 <= x -> fsqrt (Fin x) = Fin (sqrt x).
Proof. intros Hx. simpl. destruct (Rlt_dec x 0); [lra | reflexivity]. Qed.

Lemma fsum_Fin (l : list R) : fsum (map Fin l) = Fin (rsum l).
Proof.
  induction l as [| x l IH]; [reflexivity |].
  change (fadd (Fin x) (fsum (map Fin l)) = Fin (x + rsum l)).
  rewrite IH. reflexivity.
Qed.

Lemma INR_length_neq0 {A} (l : list A) : l <> [] -> INR (length l) <> 0.
Proof.
  intros Hl. apply not_0_INR. destruct l; [congruence | discriminate].
Qed.

Lemma np_mean_nil : np_mean [] = NaN.
Proof. unfold np_mean. simpl. apply fdiv_zero_zero. Qed.

Lemma np_mean_Fin (l : list R) :
  l <> [] -> np_mean (map Fin l) = Fin (rmean l).
Proof.
  intros Hl. unfold np_mean, rmean.
  rewrite fsum_Fin, length_map. apply fdiv_Fin, INR_length_neq0, Hl.
Qed.

Lemma np_var_Fin (l : list R) :
  l <> [] -> np_var (map Fin l) = Fin (rvar l).
Proof.
  intros Hl. unfold np_var, rvar.
  rewrite np_mean_Fin by exact Hl. rewrite map_map.
  rewrite (map_ext _ (fun x => Fin ((x - rmean l) * (x - rmean l)))).
  - rewrite <- (map_map _ Fin). apply np_mean_Fin.
    destruct l; [congruence | discriminate].
  - intros x. reflexivity.
Qed.

Lemma rsum_squares_nonneg (m : R) (l : list R) :
  0 <= rsum (map (fun x => (x - m) * (x - m)) l).
Proof.
  induction l as [| x l IH].
  - simpl. lra.
  - change (0 <= (x - m) * (x - m)
                 + rsum (map (fun x => (x - m) * (x - m)) l)).
    pose proof (Rle_0_sqr (x - m)) as Hsq. unfold Rsqr in Hsq. lra.
Qed.

Lemma rvar_nonneg (l : list R) : 0 <= rvar l.
Proof.
  unfold rvar, rmean at 1. rewrite length_map.
  destruct l as [| a l].
  - simpl. lra.
  - apply Rmult_le_pos.
    + apply rsum_squares_nonneg.
    + left. apply Rinv_0_lt_compat. apply lt_0_INR. simpl. lia.
Qed.




Lemma np_std_Fin (l : list R) :
  l <> [] -> np_std (map Fin l) = Fin (rstd l).
Proof.
  intros Hl. unfold np_std. rewrite np_var_Fin by exact Hl.
  apply fsqrt_Fin, rvar_nonneg.
Qed.

Lemma zscore_length (X : vector) : length (zscore X) = length X.
Proof. unfold zscore. apply length_map. Qed.







Lemma map_repeat_const {A B} (f : A -> B) (a : A) (n : nat) :
  map f (repeat a n) = repeat (f a) n.
Proof. induction n as [| n IH]; simpl; [reflexivity | now rewrite IH]. Qed.

Lemma rsum_repeat (c : R) (n : nat) : rsum (repeat c n) = INR n * c.
Proof.
  induction n as [| n IH].
  - simpl. ring.
  - rewrite S_INR. change (c + rsum (repeat c n) = (INR n + 1) * c).
    rewrite IH. ring.
Qed.

Lemma rmean_repeat (c : R) (n : nat) :
  (0 < n)%nat -> rmean (repeat c n) = c.
Proof.
  intros Hn. unfold rmean. rewrite rsum_repeat, repeat_length.
  field. apply not_0_INR. lia.
Qed.

Lemma rvar_repeat (c : R) (n : nat) : rvar (repeat c n) = 0.
Proof.
  unfold rvar. rewrite map_repeat_const. unfold rmean at 1.
  rewrite rsum_repeat, repeat_length.
  destruct n as [| n].
  - simpl. unfold Rdiv. ring.
  - rewrite rmean_repeat by lia. unfold Rdiv. ring.
Qed.

Lemma rstd_repeat (c : R) (n : nat) : rstd (repeat c n) = 0.
Proof. unfold rstd. rewrite rvar_repeat. apply sqrt_0. Qed.

(** The missed case: a constant column has standard deviation zero, every
    entry becomes [0 / 0]. *)
Lemma zscore_constant (c : R) (n : nat) :
  (0 < n)%nat -> zscore (repeat (Fin c) n) = repeat NaN n.
Proof.
  intros Hn. rewrite <- (map_repeat_const Fin c n).
  assert (Hne : repeat c n <> []) by (destruct n; [lia | discriminate]).
  unfold zscore. rewrite np_mean_Fin, np_std_Fin by exact Hne.
  rewrite rstd_repeat, rmean_repeat by exact Hn.
  rewrite !map_repeat_const. f_equal.
  simpl. destruct (Req_EM_T 0 0) as [_ | H]; [| now elim H].
  destruct (Req_EM_T (c + - c) 0) as [_ | H]; [reflexivity |].
  elim H. ring.
Qed.

Lemma concat_repeat_repeat {A} (a : A) (w h : nat) :
  concat (repeat (repeat a w) h) = repeat a (h * w).
Proof.
  induction h as [| h IH]; simpl; [reflexivity |].
  rewrite IH, repeat_app. reflexivity.
Qed.

(** Mean and variance of an all-zero image with at least one pixel. *)
Lemma mean2_zeros (h w : nat) : (0 < h * w)%nat -> mean2 (zeros2 h w) = Fin 0.
Proof.
  intros Hn. unfold mean2, flat, zeros2, fzero.
  rewrite concat_repeat_repeat, <- (map_repeat_const Fin 0).
  rewrite np_mean_Fin by (destruct (h * w)%nat; [lia | discriminate]).
  now rewrite rmean_repeat.
Qed.

Lemma var2_zeros (h w : nat) : (0 < h * w)%nat -> var2 (zeros2 h w) = Fin 0.
Proof.
  intros Hn. unfold var2, flat, zeros2, fzero.
  rewrite concat_repeat_repeat, <- (map_repeat_const Fin 0).
  rewrite np_var_Fin by (destruct (h * w)%nat; [lia | discriminate]).
  now rewrite rvar_repeat.
Qed.


(** ** Stores into arrays of [np.float32] *)

Definition pow2 (e : Z) : R := powerRZ 2 e.

(** The integer nearest to [x]; half way between two integers, the even
    one. *)
Definition rne (x : R) : Z :=
  let f := Int_part x in
  let d := x - IZR f in
  if Rlt_dec d (1 / 2) then f
  else if Rlt_dec (1 / 2) d then (f + 1)%Z
  else if Z.even f then f else (f + 1)%Z.

(** The exponent of the last of the 24 binary digits that binary32 keeps
    of [x]: the least [e], from -149 on, with [|x| < 2^(e + 24)]. *)
Fixpoint find_exp (fuel : nat) (e : Z) (x : R) : Z :=
  match fuel with
  | O => e
  | S fuel' =>
      if Rlt_dec (Rabs x) (pow2 (e + 24)) then e
      else find_exp fuel' (e + 1)%Z x
  end.

Definition ulp_exp (x : R) : Z := find_exp 254 (-149) x.

(** Rounding to the nearest binary32 number, ties to even; a magnitude
    that rounds to [2^128] or beyond becomes an infinity. *)
Definition round32 (x : R) : fval :=
  let e := ulp_exp x in
  let y := IZR (rne (x / pow2 e)) * pow2 e in
  if Rle_dec (pow2 128) (Rabs y) then (if Rlt_dec x 0 then NInf else PInf)
  else Fin y.

(** What a store into an array of dtype [np.float32] keeps of a value. *)
Definition float32 (a : fval) : fval :=
  match a with
  | Fin x => round32 x
  | _ => a
  end.

Lemma pow2_pos (e : Z) : 0 < pow2 e.
Proof. apply powerRZ_lt. lra. Qed.

Lemma pow2_IZR (e : Z) : (0 <= e)%Z -> pow2 e = IZR (2 ^ e).
Proof.
  intros He. unfold pow2. destruct e as [| p | p]; [reflexivity | | lia].
  simpl. rewrite pow_IZR, positive_nat_Z. reflexivity.
Qed.

Lemma pow2_add (a b : Z) : pow2 (a + b) = pow2 a * pow2 b.
Proof. apply powerRZ_add. lra. Qed.

Lemma pow2_ge_1 (e : Z) : (0 <= e)%Z -> 1 <= pow2 e.
Proof.
  intros He. rewrite pow2_IZR by exact He. apply IZR_le.
  assert (0 < 2 ^ e)%Z by (apply Z.pow_pos_nonneg; lia). lia.
Qed.

Lemma pow2_le (a b : Z) : (a <= b)%Z -> pow2 a <= pow2 b.
Proof.
  intros Hab. replace b with (a + (b - a))%Z by lia. rewrite pow2_add.
  pose proof (pow2_pos a).
  assert (1 <= pow2 (b - a)) by (apply pow2_ge_1; lia). nra.
Qed.

Lemma rne_IZR (n : Z) : rne (IZR n) = n.
Proof.
  unfold rne.
  replace (Int_part (IZR n)) with n by (apply Int_part_spec; lra).
  destruct (Rlt_dec (IZR n - IZR n) (1 / 2)); [reflexivity | lra].
Qed.


Lemma find_exp_le (fuel : nat) (e e0 : Z) (x : R) :
  Rabs x < pow2 (e0 + 24) -> (e <= e0)%Z -> (find_exp fuel e x <= e0)%Z.
Proof.
  intros Hx. revert e. induction fuel as [| fuel IH]; intros e He; simpl;
    [exact He |].
  destruct (Rlt_dec _ _) as [_ | Hn]; [exact He |].
  apply IH. destruct (Z.eq_dec e e0) as [-> | Hne]; [contradiction | lia].
Qed.

Lemma find_exp_lower (fuel : nat) (e e0 : Z) (x : R) :
  pow2 (e0 + 23) <= Rabs x -> (e0 <= e + Z.of_nat fuel)%Z ->
  (e0 <= find_exp fuel e x)%Z.
Proof.
  intros Hx. revert e. induction fuel as [| fuel IH]; intros e He; simpl;
    [lia |].
  destruct (Rlt_dec _ _) as [Hlt | _].
  - destruct (Z_le_gt_dec e0 e) as [Hle | Hgt]; [exact Hle |].
    assert (pow2 (e + 24) <= pow2 (e0 + 23)) by (apply pow2_le; lia). lra.
  - apply IH. lia.
Qed.

(** Zero, the special values and the integers of at most 24 binary
    digits are stored as they are. *)
Lemma float32_zero : float32 (Fin 0) = Fin 0.
Proof.
  unfold float32, round32.
  replace (0 / pow2 (ulp_exp 0)) with (IZR 0) by (unfold Rdiv; ring).
  rewrite rne_IZR, Rmult_0_l, Rabs_R0.
  pose proof (pow2_pos 128).
  destruct (Rle_dec (pow2 128) 0); [lra | reflexivity].
Qed.


Lemma float32_two_24 : float32 (Fin 16777216) = Fin 16777216.
Proof.
  unfold float32, round32.
  assert (Habs : Rabs 16777216 = 16777216) by (apply Rabs_pos_eq; lra).
  assert (He : ulp_exp 16777216 = 1%Z).
  { apply Z.le_antisymm.
    - apply find_exp_le; [| lia]. rewrite Habs, pow2_IZR by lia.
      apply IZR_lt. reflexivity.
    - apply find_exp_lower; [| lia]. rewrite Habs, pow2_IZR by lia.
      apply IZR_le. discriminate. }
  rewrite He. change (pow2 1) with (2 * 1).
  replace (16777216 / (2 * 1)) with (IZR 8388608) by lra.
  rewrite rne_IZR.
  replace (8388608 * (2 * 1)) with 16777216 by lra.
  assert (Hbig : pow2 25 <= pow2 128) by (apply pow2_le; lia).
  rewrite (pow2_IZR 25) in Hbig by lia.
  assert (IZR (2 ^ 25) = 33554432) by reflexivity.
  rewrite Habs.
  destruct (Rle_dec _ _); [lra | reflexivity].
Qed.

(** Beyond 24 digits the store rounds: [2^24 + 1] lies half way between
    [2^24] and [2^24 + 2] and is stored as [2^24]. *)
Lemma float32_rounds : float32 (Fin 16777217) = Fin 16777216.
Proof.
  unfold float32, round32.
  assert (Habs : Rabs 16777217 = 16777217) by (apply Rabs_pos_eq; lra).
  assert (He : ulp_exp 16777217 = 1%Z).
  { apply Z.le_antisymm.
    - apply find_exp_le; [| lia]. rewrite Habs, pow2_IZR by lia.
      apply IZR_lt. reflexivity.
    - apply find_exp_lower; [| lia]. rewrite Habs, pow2_IZR by lia.
      apply IZR_le. discriminate. }
  rewrite He. change (pow2 1) with (2 * 1).
  assert (Hr : rne (16777217 / (2 * 1)) = 8388608%Z).
  { unfold rne.
    replace (Int_part (16777217 / (2 * 1))) with 8388608%Z
      by (apply Int_part_spec; lra).
    destruct (Rlt_dec _ _); [lra |]. destruct (Rlt_dec _ _); [lra |].
    reflexivity. }
  rewrite Hr.
  replace (8388608 * (2 * 1)) with 16777216 by lra.
  assert (Hbig : pow2 25 <= pow2 128) by (apply pow2_le; lia).
  rewrite (pow2_IZR 25) in Hbig by lia.
  assert (IZR (2 ^ 25) = 33554432) by reflexivity.
  rewrite Rabs_pos_eq by lra.
  destruct (Rle_dec _ _); [lra | reflexivity].
Qed.




End Num.
Export Num.

(* ================================================================= *)
(** * Binary64 numbers: the angles of the kernel banks *)

Module Float64.

(** [np.pi]. *)
Definition np_pi : float := 0x1.921fb54442d18p+1%float.

(** [float(n)] for a positive Python integer: the nearest binary64
    number, ties to even. Below 2^63 it is the conversion of the machine
    integer, beyond it is computed from the specification of binary64.
    (Where the result would be an infinity, from about 2^1024 on, Python
    raises [OverflowError] instead; a count that large reaches no
    conversion here, [range] has failed before.) *)
Definition float_of_positive (n : Z) : float :=
  if (n <? 2 ^ 63)%Z then PrimFloat.of_uint63 (Uint63.of_Z n)
  else SF2Prim (SpecFloat.binary_normalize prec emax n 0 false).

(** [float(n)] for a Python integer (exact below 2^53). *)
Definition float_of_Z (n : Z) : float :=
  match n with
  | Z0 => 0%float
  | Zpos _ => float_of_positive n
  | Zneg p => PrimFloat.opp (float_of_positive (Zpos p))
  end.

(** The integer part and the exactness of a finite binary64 magnitude
    [m * 2^e]. *)
Definition magnitude_floor (m : positive) (e : Z) : Z :=
  match e with
  | Z0 => Zpos m
  | Zpos k => Zpos m * 2 ^ Zpos k
  | Zneg k => Zpos m / 2 ^ Zpos k
  end.

Definition magnitude_integral (m : positive) (e : Z) : bool :=
  match e with
  | Zneg k => (Zpos m mod 2 ^ Zpos k =? 0)%Z
  | _ => true
  end.

(** [math.ceil]; [None] on an infinity or NaN. *)
Definition float_ceil (f : float) : option Z :=
  match Prim2SF f with
  | S754_zero _ => Some 0%Z
  | S754_finite s m e =>
      let fl := magnitude_floor m e in
      Some (if s then (- fl)%Z
            else if magnitude_integral m e then fl else (fl + 1)%Z)
  | _ => None
  end.

(** [int(f)]: truncation towards zero; [None] on an infinity or NaN. *)
Definition float_trunc (f : float) : option Z :=
  match Prim2SF f with
  | S754_zero _ => Some 0%Z
  | S754_finite s m e =>
      let fl := magnitude_floor m e in
      Some (if s then (- fl)%Z else fl)
  | _ => None
  end.

End Float64.
Export Float64.

(* ================================================================= *)
(** * Objects, the heap and the monad of method bodies *)

Module Heap.

Abbreviation loc := positive.

(** The three methods of [GaborFilterSki] that the composite pipelines
    bind to the instance attribute [filter]. *)
Inductive method : Type := Filter | ConvolveToCol | RawConvolve.

(** What an attribute can hold. *)
Inductive pyval : Type :=
| VInt (n : Z)
| VFloats (fs : list float)
| VInts (ns : list Z)
| VArray (a : matrix)
| VArrays (ks : list matrix)
| VBound (m : method)
| VRef (l : loc).

(** An object is its attribute dictionary; a class or base class
    contributes a namespace of the same shape. *)
Abbreviation object := (gmap string pyval).
Abbreviation heap := (gmap loc object).

(** A method body: it reads and writes the heap and either returns or
    raises; the heap survives an exception. *)
Definition M (A : Type) : Type := heap -> result A * heap.

Definition ret {A} (a : A) : M A := fun h => (Ok a, h).
Definition raise {A} (e : exn) : M A := fun h => (Raise e, h).
Definition bind {A B} (m : M A) (k : A -> M B) : M B :=
  fun h => match m h with
           | (Ok a, h') => k a h'
           | (Raise e, h') => (Raise e, h')
           end.
Definition lift {A} (r : result A) : M A := fun h => (r, h).

Declare Scope py_scope.
Delimit Scope py_scope with py.
Notation "'let*' x ':=' m 'in' k" := (bind m (fun x => k))
  (at level 10, x name, m at level 100, k at level 200) : py_scope.
Local Open Scope py_scope.

Fixpoint mapM {A B} (f : A -> M B) (l : list A) : M (list B) :=
  match l with
  | [] => ret []
  | a :: l' => let* b := f a in let* bs := mapM f l' in ret (b :: bs)
  end.

(** Attribute lookup: the instance dictionary first, then the namespaces
    of the class and its bases in method resolution order. *)
Fixpoint lookup_ns (nss : list object) (name : string) : option pyval :=
  match nss with
  | [] => None
  | ns :: rest =>
      match ns !! name with
      | Some v => Some v
      | None => lookup_ns rest name
      end
  end.

Definition getattr (mro : list object) (self : loc) (name : string)
  : M pyval :=
  fun h =>
    match h !! self with
    | Some d =>
        match lookup_ns (d :: mro) name with
        | Some v => (Ok v, h)
        | None => (Raise (AttributeError name), h)
        end
    | None => (Raise (AttributeError name), h)
    end.

(** Reads that expect a value of a given kind. *)
Definition get_int (mro : list object) (self : loc) (name : string) : M Z :=
  let* v := getattr mro self name in
  match v with VInt n => ret n | _ => raise (TypeError name) end.

Definition get_ints (mro : list object) (self : loc) (name : string)
  : M (list Z) :=
  let* v := getattr mro self name in
  match v with VInts ns => ret ns | _ => raise (TypeError name) end.

Definition get_floats (mro : list object) (self : loc) (name : string)
  : M (list float) :=
  let* v := getattr mro self name in
  match v with VFloats fs => ret fs | _ => raise (TypeError name) end.

Definition get_arrays (mro : list object) (self : loc) (name : string)
  : M (list matrix) :=
  let* v := getattr mro self name in
  match v with VArrays ks => ret ks | _ => raise (TypeError name) end.

(** [self.name = v]. *)
Definition setattr (self : loc) (name : string) (v : pyval) : M unit :=
  fun h =>
    match h !! self with
    | Some d => (Ok tt, <[self := <[name := v]> d]> h)
    | None => (Raise (AttributeError name), h)
    end.

(** [self.name.append(k)] on a list-valued attribute. *)
Definition append_attr (self : loc) (name : string) (k : matrix) : M unit :=
  fun h =>
    match h !! self with
    | Some d =>
        match d !! name with
        | Some (VArrays ks) =>
            (Ok tt, <[self := <[name := VArrays (ks ++ [k])]> d]> h)
        | Some _ => (Raise (AttributeError "append"), h)
        | None => (Raise (AttributeError name), h)
        end
    | None => (Raise (AttributeError name), h)
    end.

(** Creation of an object with the attributes [d]. *)
Definition alloc (d : object) : M loc :=
  fun h => let l := fresh (dom h) in (Ok l, <[l := d]> h).

(** A computation that leaves the heap as it found it. *)
Definition read_only {A} (m : M A) : Prop := forall h, snd (m h) = h.

(** [range(n)]. *)
Definition py_range (n : Z) : list Z := map Z.of_nat (seq 0 (Z.to_nat n)).

(** ** Facts *)

Lemma read_only_ret {A} (a : A) : read_only (ret a).
Proof. intros h. reflexivity. Qed.

Lemma read_only_raise {A} (e : exn) : read_only (@raise A e).
Proof. intros h. reflexivity. Qed.

Lemma read_only_lift {A} (r : result A) : read_only (lift r).
Proof. intros h. reflexivity. Qed.

Lemma read_only_bind {A B} (m : M A) (k : A -> M B) :
  read_only m -> (forall a, read_only (k a)) -> read_only (bind m k).
Proof.
  intros Hm Hk h. unfold bind. specialize (Hm h).
  destruct (m h) as [[a | e] h']; simpl in Hm; subst h'.
  - apply Hk.
  - reflexivity.
Qed.

Lemma read_only_getattr mro self name : read_only (getattr mro self name).
Proof.
  intros h. unfold getattr. destruct (h !! self) as [d |]; [| reflexivity].
  destruct (lookup_ns (d :: mro) name); reflexivity.
Qed.

Lemma read_only_mapM {A B} (f : A -> M B) (l : list A) :
  (forall a, read_only (f a)) -> read_only (mapM f l).
Proof.
  intros Hf. induction l as [| a l IH]; simpl.
  - apply read_only_ret.
  - apply read_only_bind; [apply Hf |]. intros b.
    apply read_only_bind; [apply IH |]. intros bs. apply read_only_ret.
Qed.

Lemma read_only_get_arrays mro self name :
  read_only (get_arrays mro self name).
Proof.
  apply read_only_bind; [apply read_only_getattr |].
  intros [| | | | | |]; first [apply read_only_ret | apply read_only_raise].
Qed.

Lemma read_only_get_int mro self name : read_only (get_int mro self name).
Proof.
  apply read_only_bind; [apply read_only_getattr |].
  intros [| | | | | |]; first [apply read_only_ret | apply read_only_raise].
Qed.

Lemma getattr_instance mro self name h d v :
  h !! self = Some d -> d !! name = Some v ->
  getattr mro self name h = (Ok v, h).
Proof.
  intros Hd Hv. unfold getattr. rewrite Hd. simpl. rewrite Hv. reflexivity.
Qed.

Lemma get_arrays_instance mro h self d name ks :
  h !! self = Some d -> d !! name = Some (VArrays ks) ->
  get_arrays mro self name h = (Ok ks, h).
Proof.
  intros Hd Hk. unfold get_arrays, bind.
  rewrite (getattr_instance _ _ _ _ _ _ Hd Hk). reflexivity.
Qed.

Lemma get_int_instance mro h self d name n :
  h !! self = Some d -> d !! name = Some (VInt n) ->
  get_int mro self name h = (Ok n, h).
Proof.
  intros Hd Hk. unfold get_int, bind.
  rewrite (getattr_instance _ _ _ _ _ _ Hd Hk). reflexivity.
Qed.

Lemma bind_ok {A B} (m : M A) (k : A -> M B) h a h' :
  m h = (Ok a, h') -> bind m k h = k a h'.
Proof. intros E. unfold bind. rewrite E. reflexivity. Qed.

Lemma bind_raise {A B} (m : M A) (k : A -> M B) h e h' :
  m h = (Raise e, h') -> bind m k h = (Raise e, h').
Proof. intros E. unfold bind. rewrite E. reflexivity. Qed.

Lemma py_range_length (n : Z) : (0 <= n)%Z -> Z.of_nat (length (py_range n)) = n.
Proof.
  intros Hn. unfold py_range. rewrite length_map, length_seq. lia.
Qed.

End Heap.
Export Heap.

(* ================================================================= *)
(** * Loops and in-place array updates shared by the filter classes *)

Module Loops.

Local Open Scope py_scope.

(** [for a in l: body(a)]. *)
Fixpoint forM {A} (l : list A) (body : A -> M unit) : M unit :=
  match l with
  | [] => ret tt
  | a :: l' => let* _ := body a in forM l' body
  end.

(** A loop that threads a local variable. *)
Fixpoint foldM {A S} (body : S -> A -> M S) (l : list A) (s : S) : M S :=
  match l with
  | [] => ret s
  | a :: l' => let* s' := body s a in foldM body l' s'
  end.

(** [enumerate(l)], counting from [i]. *)
Fixpoint enumerate_from {A} (i : nat) (l : list A) : list (nat * A) :=
  match l with
  | [] => []
  | a :: l' => (i, a) :: enumerate_from (S i) l'
  end.

Definition enumerate {A} (l : list A) : list (nat * A) := enumerate_from 0 l.

(** [feats[k, j] = v]. *)
Definition set_entry (feats : matrix) (k j : nat) (v : fval) : matrix :=
  alter (fun row => <[j := v]> row) k feats.

(** [feats[:, i]]. *)
Definition get_col (feats : matrix) (i : nat) : vector :=
  map (fun row => nth i row fzero) feats.

(** [feats[:, i] = col], for a column of the height of [feats]. *)
Definition set_col (feats : matrix) (i : nat) (col : vector) : matrix :=
  zip_with (fun row v => <[i := v]> row) feats col.

Lemma read_only_forM {A} (l : list A) (body : A -> M unit) :
  (forall a, read_only (body a)) -> read_only (forM l body).
Proof.
  intros Hb. induction l as [| a l IH]; simpl.
  - apply read_only_ret.
  - apply read_only_bind; [apply Hb | intros _; apply IH].
Qed.

Lemma read_only_foldM {A S} (body : S -> A -> M S) (l : list A) (s : S) :
  (forall s a, read_only (body s a)) -> read_only (foldM body l s).
Proof.
  intros Hb. revert s. induction l as [| a l IH]; intros s; simpl.
  - apply read_only_ret.
  - apply read_only_bind; [apply Hb | intros s'; apply IH].
Qed.

Lemma enumerate_from_length {A} (i : nat) (l : list A) :
  length (enumerate_from i l) = length l.
Proof.
  revert i. induction l as [| a l IH]; intros i; simpl;
    [reflexivity | now rewrite IH].
Qed.

End Loops.
Export Loops.

(* ================================================================= *)
(** * The base class

    [AbstractFeature] belongs to [facerec_py.facerec.feature] and is not
    among the sources. An instance sees of it the attributes its
    constructor sets ([base_attrs]) and the names its class body defines
    ([base_ns]); both are parameters of what follows. *)

Module AbstractFeature.

(** [AbstractFeature.__init__(self)]. *)
Definition __init__ (base_attrs : object) (self : loc) : M unit :=
  fun h =>
    match h !! self with
    | Some d => (Ok tt, <[self := base_attrs ∪ d]> h)
    | None => (Raise (AttributeError "__init__"), h)
    end.

End AbstractFeature.

(* ================================================================= *)
(** * Small instances of the numeric primitives

    The theorems below hold for every implementation of the primitives.
    To exercise them on concrete inputs, the primitives are instantiated
    with kernels of a single entry, for which convolution and correlation
    are multiplication by that entry. *)

Module Standin.

(** A Gabor kernel generator whose kernels have the one entry [sigma_x]. *)
Definition gabor_kernel (frequency theta : float) (sigma_x sigma_y : Z)
  : list (list (fval * fval)) :=
  [[(Fin (IZR sigma_x), fzero)]].

(** Convolution with a kernel of one entry, whatever the boundary mode. *)
Definition nd_convolve (x kernel : matrix) (mode : boundary) (cval : fval)
  : result matrix :=
  match kernel with
  | [[w]] => Ok (map (map (fun p => fmul w p)) x)
  | _ => Raise (PrimitiveError "kernel shape")
  end.

Definition asColumnMatrix (X : list matrix) : result matrix :=
  Ok (map flat X).

(** An OpenCV kernel generator with one-row kernels: the weight sits on
    the first entry for the orientation 0 and on the second otherwise. *)
Definition getGaborKernel (ksize : Z * Z)
    (sigma theta lambd gamma psi : float) : matrix :=
  if (theta =? 0)%float then [[Fin 3; Fin 0]] else [[Fin 1; Fin 2]].

(** A filter that keeps the image when the first weight of the kernel
    exceeds one half and suppresses it otherwise. *)
Definition filter2D (x : list (list Z)) (kernel : matrix)
  : result (list (list Z)) :=
  match kernel with
  | (Fin w :: _) :: _ =>
      Ok (if Rlt_dec (1 / 2) w then x else map (map (fun _ => 0%Z)) x)
  | _ => Raise (PrimitiveError "kernel")
  end.

Definition imagesAsColumnMatrix (X : list (list (list Z))) : result matrix :=
  Ok (map (fun x => map (fun p => Fin (IZR p)) (concat x)) X).

(** A fit that learns the one parameter [num_components], and a
    projection that returns the learned parameters. *)
Definition fisher_fit (num_components : Z) (X : list ndarray) (y : list Z)
  : result matrix :=
  Ok [[Fin (IZR num_components)]].

Definition fisher_project (W : matrix) (x : ndarray) : result ndarray :=
  Ok (Arr2 W).

End Standin.

(* ================================================================= *)
(** * [GaborFilterSki] *)

Module GaborFilterSki.

Local Open Scope py_scope.

(** [np.real] of a complex array, entries as pairs. *)
Definition np_real (k : list (list (fval * fval))) : matrix :=
  map (map fst) k.

(** The functions the class statement defines, as the instance sees them
    before any attribute shadows them. *)
Definition class_ns : object :=
  <["filter" := VBound Filter]>
    (<["convolve_to_col" := VBound ConvolveToCol]>
       (<["raw_convolve" := VBound RawConvolve]> ∅)).

(** [feats[i, :, :] = filtered], for a slice of [rows] rows and [cols]
    columns of an array of dtype [np.float32]: the entries are rounded on
    the way in, and a value of another shape is refused. (numpy would
    repeat a value with a single row or column along that axis; such a
    value does not occur here, [nd.convolve] returns an array of the
    shape of its input.) *)
Definition store_slice (rows cols : nat) (value : matrix) : result matrix :=
  if bool_decide (map length value = repeat cols rows)
  then Ok (map (map float32) value)
  else Raise (ValueError "could not broadcast input array").

(** [feats[k, :] = filtered.reshape(1, -1)], for a row of [size] entries
    of an array of dtype [np.float32]. *)
Definition store_row (size : nat) (value : vector) : result vector :=
  if bool_decide (length value = size)
  then Ok (map float32 value)
  else Raise (ValueError "could not broadcast input array").

Section Ski.

(** [skimage.filters.gabor_kernel(frequency, theta, sigma_x, sigma_y)]. *)
Variable gabor_kernel : float -> float -> Z -> Z -> list (list (fval * fval)).

(** [scipy.ndimage.convolve(x, kernel, mode, cval)]. *)
Variable nd_convolve : matrix -> matrix -> boundary -> fval -> result matrix.

(** [asColumnMatrix] of [facerec_py.facerec.util]; only its failure can
    matter, the matrix it returns is never used. *)
Variable asColumnMatrix : list matrix -> result matrix.

(** The base class [AbstractFeature] of [facerec_py.facerec.feature]: the
    attributes its constructor leaves on a new instance, and the names its
    class body defines. *)
Variable base_attrs : object.
Variable base_ns : object.

Definition mro : list object := [class_ns; base_ns].

(** [theta / float(self._theta_r) * np.pi]. *)
Definition angle (theta theta_r : Z) : float :=
  (float_of_Z theta / float_of_Z theta_r * np_pi)%float.

Definition __init__ (self : loc)
    (freq_t : list float) (theta_r : Z) (sigma_tuple : list Z) : M unit :=
  let* _ := AbstractFeature.__init__ base_attrs self in
  let* _ := setattr self "_freq_t" (VFloats freq_t) in
  let* _ := setattr self "_theta_r" (VInt theta_r) in
  let* _ := setattr self "_sigma_t" (VInts sigma_tuple) in
  let* _ := setattr self "_kernels" (VArrays []) in
  let* n := get_int mro self "_theta_r" in
  forM (py_range n) (fun theta =>
    let* r := get_int mro self "_theta_r" in
    let theta := angle theta r in
    let* sigmas := get_ints mro self "_sigma_t" in
    forM sigmas (fun sigma =>
      let* freqs := get_floats mro self "_freq_t" in
      forM freqs (fun frequency =>
        let kernel :=
          np_real (gabor_kernel frequency theta sigma sigma) in
        append_attr self "_kernels" kernel))).

(** [GaborFilterSki(freq_t, theta_r, sigma_tuple)]. *)
Definition new (freq_t : list float) (theta_r : Z) (sigma_tuple : list Z)
  : M loc :=
  let* self := alloc ∅ in
  let* _ := __init__ self freq_t theta_r sigma_tuple in
  ret self.

Definition default_freq_t : list float := [0.05; 0.15; 0.25]%float.
Definition default_theta_r : Z := 8.
Definition default_sigma_tuple : list Z := [1; 2; 4; 8; 16]%Z.

(** The body of the loop over the kernels in [filter]; [feats] is an
    array of dtype [np.float32], so the mean and the variance are rounded
    as they are stored. *)
Definition stat_step (x : matrix) (feats : matrix) (item : nat * matrix)
  : M matrix :=
  let '(k, kernel) := item in
  let* filtered := lift (nd_convolve x kernel Wrap fzero) in
  let feats := set_entry feats k 0 (float32 (mean2 filtered)) in
  let feats := set_entry feats k 1 (float32 (var2 filtered)) in
  ret feats.

(** The body of the loop over the two columns: [feats[:, i] =
    normalization.zscore(feats[:, i])], a store into the same array. *)
Definition zscore_step (feats : matrix) (i : nat) : matrix :=
  set_col feats i (map float32 (zscore (get_col feats i))).

(** The statistics mode. *)
Definition filter (self : loc) (x : matrix) : M matrix :=
  let* ks := get_arrays mro self "_kernels" in
  let feats := zeros2 (length ks) 2 in
  let* kernels := get_arrays mro self "_kernels" in
  let* feats := foldM (stat_step x) (enumerate kernels) feats in
  let feats := fold_left zscore_step [0; 1]%nat feats in
  ret feats.

Definition col_step (x : matrix) (feats : matrix) (item : nat * matrix)
  : M matrix :=
  let '(k, kernel) := item in
  let* filtered := lift (nd_convolve x kernel Reflect fzero) in
  let* row := lift (store_row (length (flat x)) (flat filtered)) in
  ret (<[k := row]> feats).

Definition convolve_to_col (self : loc) (x : matrix) : M matrix :=
  let* ks := get_arrays mro self "_kernels" in
  let feats := zeros2 (length ks) (length (flat x)) in
  let* kernels := get_arrays mro self "_kernels" in
  foldM (col_step x) (enumerate kernels) feats.

Definition raw_step (x : matrix) (feats : tensor) (item : nat * matrix)
  : M tensor :=
  let '(i, v) := item in
  let* filtered := lift (nd_convolve x v Reflect fzero) in
  let* slice :=
    lift (store_slice (length x) (length (hd [] x)) filtered) in
  ret (<[i := slice]> feats).

Definition raw_convolve (self : loc) (x : matrix) : M tensor :=
  let* ks := get_arrays mro self "_kernels" in
  let feats := repeat (zeros2 (length x) (length (hd [] x))) (length ks) in
  let* kernels := get_arrays mro self "_kernels" in
  foldM (raw_step x) (enumerate kernels) feats.

(** A call through a bound method object. *)
Definition invoke (m : method) (self : loc) (x : matrix) : M ndarray :=
  match m with
  | Filter => let* a := filter self x in ret (Arr2 a)
  | ConvolveToCol => let* a := convolve_to_col self x in ret (Arr2 a)
  | RawConvolve => let* a := raw_convolve self x in ret (Arr3 a)
  end.

(** [self.filter(x)]: whatever the name [filter] is bound to now. *)
Definition call_filter (self : loc) (x : matrix) : M ndarray :=
  let* f := getattr mro self "filter" in
  match f with
  | VBound m => invoke m self x
  | _ => raise (TypeError "filter")
  end.

Definition compute (self : loc) (X : list matrix) (y : list Z)
  : M (list ndarray) :=
  let* XC := lift (asColumnMatrix X) in
  mapM (fun x => call_filter self x) X.

Definition extract (self : loc) (X : matrix) : M ndarray :=
  call_filter self X.

(** The property [prop]: [return self._prop]. *)
Definition prop (self : loc) : M pyval :=
  getattr mro self "_prop".

(** ** The kernel bank that [__init__] builds *)

(** The bank as a comprehension over the parameter grid, in loop order. *)
Definition kernel_grid (freq_t : list float) (theta_r : Z)
    (sigma_tuple : list Z) : list matrix :=
  flat_map (fun theta =>
    flat_map (fun sigma =>
      map (fun frequency =>
             np_real (gabor_kernel frequency (angle theta theta_r)
                                   sigma sigma))
          freq_t)
      sigma_tuple)
    (py_range theta_r).

(** The attribute dictionary of an instance whose bank is [ks]. *)
Definition instance_dict (d0 : object) (freq_t : list float) (theta_r : Z)
    (sigma_tuple : list Z) (ks : list matrix) : object :=
  <["_kernels" := VArrays ks]>
    (<["_sigma_t" := VInts sigma_tuple]>
       (<["_theta_r" := VInt theta_r]>
          (<["_freq_t" := VFloats freq_t]> (base_attrs ∪ d0)))).

Lemma setattr_at h self d name v :
  setattr self name v (<[self := d]> h)
  = (Ok tt, <[self := <[name := v]> d]> h).
Proof.
  unfold setattr. rewrite lookup_insert_eq, insert_insert_eq. reflexivity.
Qed.

Lemma getattr_at h self d name v :
  d !! name = Some v ->
  getattr mro self name (<[self := d]> h) = (Ok v, <[self := d]> h).
Proof.
  intros Hv. apply getattr_instance with (d := d); [| exact Hv].
  apply lookup_insert_eq.
Qed.

Lemma append_at h self rest ks k :
  append_attr self "_kernels" k
    (<[self := <["_kernels" := VArrays ks]> rest]> h)
  = (Ok tt, <[self := <["_kernels" := VArrays (ks ++ [k])]> rest]> h).
Proof.
  unfold append_attr. rewrite lookup_insert_eq. simpl.
  rewrite lookup_insert_eq, !insert_insert_eq. reflexivity.
Qed.

Section InitLoops.

Variables (h : heap) (self : loc) (rest : object).
Variables (freq_t : list float) (theta_r : Z) (sigma_tuple : list Z).
Hypothesis Hfreq : rest !! "_freq_t" = Some (VFloats freq_t).
Hypothesis Htheta : rest !! "_theta_r" = Some (VInt theta_r).
Hypothesis Hsigma : rest !! "_sigma_t" = Some (VInts sigma_tuple).

Let state (ks : list matrix) : heap :=
  <[self := <["_kernels" := VArrays ks]> rest]> h.

Lemma frequency_loop (theta : float) (sigma : Z) (fs : list float) ks :
  forM fs (fun frequency =>
             append_attr self "_kernels"
               (np_real (gabor_kernel frequency theta sigma sigma)))
       (state ks)
  = (Ok tt,
     state (ks ++ map (fun frequency =>
                         np_real (gabor_kernel frequency theta sigma sigma))
                      fs)).
Proof using Type.
  revert ks. induction fs as [| f fs IH]; intros ks; simpl.
  - rewrite app_nil_r. reflexivity.
  - unfold bind at 1. unfold state at 1. rewrite append_at.
    fold (state (ks ++ [np_real (gabor_kernel f theta sigma sigma)])).
    rewrite IH, <- app_assoc. reflexivity.
Qed.

Lemma get_floats_state ks :
  get_floats mro self "_freq_t" (state ks) = (Ok freq_t, state ks).
Proof using Hfreq.
  unfold get_floats, bind, state.
  rewrite (getattr_at _ _ _ _ (VFloats freq_t)); [reflexivity |].
  rewrite lookup_insert_ne by done. exact Hfreq.
Qed.

Lemma get_ints_state ks :
  get_ints mro self "_sigma_t" (state ks) = (Ok sigma_tuple, state ks).
Proof using Hsigma.
  unfold get_ints, bind, state.
  rewrite (getattr_at _ _ _ _ (VInts sigma_tuple)); [reflexivity |].
  rewrite lookup_insert_ne by done. exact Hsigma.
Qed.

Lemma get_int_state ks :
  get_int mro self "_theta_r" (state ks) = (Ok theta_r, state ks).
Proof using Htheta.
  unfold get_int, bind, state.
  rewrite (getattr_at _ _ _ _ (VInt theta_r)); [reflexivity |].
  rewrite lookup_insert_ne by done. exact Htheta.
Qed.

Lemma sigma_loop (theta : float) (ss : list Z) ks :
  forM ss (fun sigma =>
    let* freqs := get_floats mro self "_freq_t" in
    forM freqs (fun frequency =>
      append_attr self "_kernels"
        (np_real (gabor_kernel frequency theta sigma sigma))))
    (state ks)
  = (Ok tt,
     state (ks ++ flat_map (fun sigma =>
                     map (fun frequency =>
                            np_real (gabor_kernel frequency theta sigma sigma))
                         freq_t) ss)).
Proof using Hfreq.
  revert ks. induction ss as [| sg ss IH]; intros ks; simpl.
  - rewrite app_nil_r. reflexivity.
  - unfold bind at 1. unfold bind at 1.
    rewrite get_floats_state, frequency_loop, IH, <- app_assoc.
    reflexivity.
Qed.

Lemma theta_loop (ts : list Z) ks :
  forM ts (fun theta =>
    let* r := get_int mro self "_theta_r" in
    let theta := angle theta r in
    let* sigmas := get_ints mro self "_sigma_t" in
    forM sigmas (fun sigma =>
      let* freqs := get_floats mro self "_freq_t" in
      forM freqs (fun frequency =>
        append_attr self "_kernels"
          (np_real (gabor_kernel frequency theta sigma sigma)))))
    (state ks)
  = (Ok tt,
     state (ks ++ flat_map (fun theta =>
                     flat_map (fun sigma =>
                       map (fun frequency =>
                              np_real (gabor_kernel frequency
                                         (angle theta theta_r) sigma sigma))
                           freq_t) sigma_tuple) ts)).
Proof using Hfreq Htheta Hsigma.
  revert ks. induction ts as [| t ts IH]; intros ks; simpl.
  - rewrite app_nil_r. reflexivity.
  - unfold bind at 1. unfold bind at 1.
    rewrite get_int_state. unfold bind at 1.
    rewrite get_ints_state, sigma_loop, IH, <- app_assoc.
    reflexivity.
Qed.

End InitLoops.

(** The constructor always returns, and leaves exactly the four attributes
    on top of what the base class set. *)
Lemma init_spec h self d0 freq_t theta_r sigma_tuple :
  h !! self = Some d0 ->
  __init__ self freq_t theta_r sigma_tuple h
  = (Ok tt,
     <[self := instance_dict d0 freq_t theta_r sigma_tuple
                 (kernel_grid freq_t theta_r sigma_tuple)]> h).
Proof.
  intros Hd. unfold __init__.
  unfold bind at 1. unfold AbstractFeature.__init__ at 1. rewrite Hd.
  unfold bind at 1. rewrite setattr_at.
  unfold bind at 1. rewrite setattr_at.
  unfold bind at 1. rewrite setattr_at.
  unfold bind at 1. rewrite setattr_at.
  set (rest := <["_sigma_t" := VInts sigma_tuple]> _).
  assert (Hf : rest !! "_freq_t" = Some (VFloats freq_t)).
  { unfold rest. rewrite !lookup_insert_ne by done. apply lookup_insert_eq. }
  assert (Ht : rest !! "_theta_r" = Some (VInt theta_r)).
  { unfold rest. rewrite lookup_insert_ne by done. apply lookup_insert_eq. }
  assert (Hs : rest !! "_sigma_t" = Some (VInts sigma_tuple)).
  { unfold rest. apply lookup_insert_eq. }
  unfold bind at 1.
  rewrite (get_int_state h self rest theta_r Ht []).
  rewrite (theta_loop h self rest freq_t theta_r sigma_tuple Hf Ht Hs).
  reflexivity.
Qed.

Lemma new_spec h freq_t theta_r sigma_tuple :
  new freq_t theta_r sigma_tuple h
  = (Ok (fresh (dom h)),
     <[fresh (dom h) := instance_dict ∅ freq_t theta_r sigma_tuple
                          (kernel_grid freq_t theta_r sigma_tuple)]> h).
Proof.
  unfold new, bind at 1, alloc.
  unfold bind at 1. rewrite init_spec with (d0 := ∅) by apply lookup_insert_eq.
  rewrite insert_insert_eq. reflexivity.
Qed.

Lemma flat_map_length_const {A B} (g : A -> list B) (c : nat) (l : list A) :
  (forall a, length (g a) = c) -> length (flat_map g l) = (length l * c)%nat.
Proof.
  intros Hg. induction l as [| a l IH]; simpl; [reflexivity |].
  rewrite length_app, Hg, IH. reflexivity.
Qed.

Lemma kernel_grid_length freq_t theta_r sigma_tuple :
  (0 <= theta_r)%Z ->
  Z.of_nat (length (kernel_grid freq_t theta_r sigma_tuple))
  = (theta_r * Z.of_nat (length sigma_tuple) * Z.of_nat (length freq_t))%Z.
Proof.
  intros Ht. unfold kernel_grid.
  rewrite (flat_map_length_const _ (length sigma_tuple * length freq_t)).
  - rewrite !Nat2Z.inj_mul, py_range_length by exact Ht. ring.
  - intros theta. apply flat_map_length_const. intros sigma.
    apply length_map.
Qed.

(** ** No method other than the constructor writes to the heap *)

Lemma read_only_filter self x : read_only (filter self x).
Proof.
  unfold filter.
  apply read_only_bind; [apply read_only_get_arrays | intros ks].
  apply read_only_bind; [apply read_only_get_arrays | intros kernels].
  apply read_only_bind; [| intros feats; apply read_only_ret].
  apply read_only_foldM. intros feats [k kernel].
  apply read_only_bind; [apply read_only_lift | intros r; apply read_only_ret].
Qed.

Lemma read_only_convolve_to_col self x : read_only (convolve_to_col self x).
Proof.
  unfold convolve_to_col.
  apply read_only_bind; [apply read_only_get_arrays | intros ks].
  apply read_only_bind; [apply read_only_get_arrays | intros kernels].
  apply read_only_foldM. intros feats [k kernel].
  apply read_only_bind; [apply read_only_lift | intros r].
  apply read_only_bind; [apply read_only_lift | intros s; apply read_only_ret].
Qed.

Lemma read_only_raw_convolve self x : read_only (raw_convolve self x).
Proof.
  unfold raw_convolve.
  apply read_only_bind; [apply read_only_get_arrays | intros ks].
  apply read_only_bind; [apply read_only_get_arrays | intros kernels].
  apply read_only_foldM. intros feats [k kernel].
  apply read_only_bind; [apply read_only_lift | intros r].
  apply read_only_bind; [apply read_only_lift | intros s; apply read_only_ret].
Qed.

Lemma read_only_invoke m self x : read_only (invoke m self x).
Proof.
  destruct m; simpl; (apply read_only_bind; [| intros a; apply read_only_ret]).
  - apply read_only_filter.
  - apply read_only_convolve_to_col.
  - apply read_only_raw_convolve.
Qed.

Lemma read_only_call_filter self x : read_only (call_filter self x).
Proof.
  apply read_only_bind; [apply read_only_getattr |].
  intros [| | | | | m |]; first [apply read_only_invoke | apply read_only_raise].
Qed.

Lemma read_only_compute self X y : read_only (compute self X y).
Proof.
  apply read_only_bind; [apply read_only_lift | intros _].
  apply read_only_mapM. intros x. apply read_only_call_filter.
Qed.

Lemma read_only_extract self X : read_only (extract self X).
Proof. apply read_only_call_filter. Qed.

(** ** What the statistics mode returns *)

(** Row [k] before normalisation: mean and variance of response [k], as
    the array of [np.float32] holds them. *)
Definition stat_rows (responses : list matrix) : matrix :=
  map (fun filtered => [float32 (mean2 filtered); float32 (var2 filtered)])
      responses.

(** The two columns standardised across the kernels and stored back. *)
Definition normalised (pre : matrix) : matrix :=
  zip_with (fun a b => [a; b])
           (map float32 (zscore (get_col pre 0)))
           (map float32 (zscore (get_col pre 1))).

(** The responses of the bank: [rs] lists [nd.convolve(x, k, mode)] for
    the kernels [ks] in order, all of them successful. *)
Definition responses_of (mode : boundary) (x : matrix)
    (ks rs : list matrix) : Prop :=
  Forall2 (fun kernel filtered =>
             nd_convolve x kernel mode fzero = Ok filtered) ks rs.

Lemma set_entry_app (done : matrix) (row : vector) (todo : matrix)
    (j : nat) (v : fval) :
  set_entry (done ++ row :: todo) (length done) j v
  = done ++ <[j := v]> row :: todo.
Proof.
  unfold set_entry. induction done as [| r done IH]; simpl.
  - reflexivity.
  - f_equal. exact IH.
Qed.

Lemma stat_loop x h (ks rs : list matrix) (done : matrix) :
  responses_of Wrap x ks rs ->
  foldM (stat_step x) (enumerate_from (length done) ks)
        (done ++ zeros2 (length ks) 2) h
  = (Ok (done ++ stat_rows rs), h).
Proof.
  intros Hrs. revert done.
  induction Hrs as [| kernel filtered ks rs Hk _ IH]; intros done.
  - reflexivity.
  - simpl. unfold bind at 1. unfold stat_step at 1.
    unfold bind at 1. unfold lift at 1.
    rewrite Hk. unfold ret at 1.
    change (zeros2 (S (length ks)) 2)
      with ([fzero; fzero] :: zeros2 (length ks) 2).
    rewrite !set_entry_app. simpl.
    specialize (IH (done ++ [[float32 (mean2 filtered);
                              float32 (var2 filtered)]])).
    rewrite length_app, Nat.add_1_r, <- !app_assoc in IH. simpl in IH.
    exact IH.
Qed.



Lemma normalise_loop (pre : matrix) :
  Forall (fun row => length row = 2%nat) pre ->
  fold_left zscore_step [0; 1]%nat pre = normalised pre.
Proof.
  intros Hrows. unfold normalised, zscore_step. simpl.
  assert (Hgen : forall (c0 c1 : vector),
             length c0 = length pre -> length c1 = length pre ->
             get_col (set_col pre 0 c0) 1 = get_col pre 1 /\
             set_col (set_col pre 0 c0) 1 c1
             = zip_with (fun a b => [a; b]) c0 c1).
  { induction Hrows as [| row pre Hrow _ IH]; intros c0 c1 H0 H1.
    - destruct c0; [| discriminate]. destruct c1; [| discriminate].
      split; reflexivity.
    - destruct c0 as [| a c0]; [discriminate |].
      destruct c1 as [| b c1]; [discriminate |].
      destruct row as [| p [| q [| ? ?]]]; try discriminate.
      simpl in H0, H1.
      destruct (IH c0 c1) as [E1 E2]; [lia | lia |].
      split; simpl.
      + f_equal. exact E1.
      + f_equal. exact E2. }
  destruct (Hgen (map float32 (zscore (get_col pre 0)))
                 (map float32 (zscore (get_col pre 1))))
    as [E1 E2].
  - rewrite length_map, zscore_length. apply length_map.
  - rewrite length_map, zscore_length. apply length_map.
  - rewrite E1. exact E2.
Qed.

(** The statistics mode returns, and what it returns is the normalised
    table of means and variances. *)
Lemma filter_spec h self d ks x rs :
  h !! self = Some d ->
  d !! "_kernels" = Some (VArrays ks) ->
  responses_of Wrap x ks rs ->
  filter self x h = (Ok (normalised (stat_rows rs)), h).
Proof.
  intros Hd Hk Hrs. unfold filter.
  pose proof (get_arrays_instance mro h self d "_kernels" ks Hd Hk) as Hget.
  unfold bind at 1. rewrite Hget.
  unfold bind at 1. rewrite Hget.
  unfold bind at 1. unfold enumerate.
  pose proof (stat_loop x h ks rs [] Hrs) as Hloop. simpl in Hloop.
  rewrite Hloop.
  unfold ret. f_equal. f_equal. apply normalise_loop.
  unfold stat_rows. apply Forall_forall. intros row Hin.
  apply list_elem_of_fmap in Hin as [r [-> _]]. reflexivity.
Qed.








(** ** A bank of one kernel, and the all-zero image *)




Lemma responses_constant (mode : boundary) (x r : matrix) (ks : list matrix) :
  (forall kernel, In kernel ks -> nd_convolve x kernel mode fzero = Ok r) ->
  responses_of mode x ks (repeat r (length ks)).
Proof.
  intros H. induction ks as [| k ks IH]; simpl; constructor.
  - apply H. now left.
  - apply IH. intros kernel Hin. apply H. now right.
Qed.

Lemma normalised_constant (a b : R) (n : nat) :
  (0 < n)%nat ->
  normalised (repeat [Fin a; Fin b] n) = repeat [NaN; NaN] n.
Proof.
  intros Hn. unfold normalised, get_col.
  rewrite !map_repeat_const.
  change (nth 0 [Fin a; Fin b] fzero) with (Fin a).
  change (nth 1 [Fin a; Fin b] fzero) with (Fin b).
  rewrite !zscore_constant by exact Hn. rewrite !map_repeat_const.
  change (float32 NaN) with NaN.
  clear Hn. induction n as [| n IH]; simpl; [reflexivity | now rewrite IH].
Qed.

(** C5 at its input: the instance built with [theta_r=2],
    [sigma_tuple=(1,)] and the default frequencies holds six kernels; on
    the 32x32 all-zero image every row is (0, 0) before normalisation,
    and the normalisation turns every entry into NaN. The convolution of
    the zero image is taken to be the zero image. *)
Theorem zero_image_all_nan h :
  (forall kernel, In kernel (kernel_grid default_freq_t 2 [1%Z]) ->
     nd_convolve (zeros2 32 32) kernel Wrap fzero = Ok (zeros2 32 32)) ->
  exists self h' ks,
    new default_freq_t 2 [1%Z] h = (Ok self, h') /\
    get_arrays mro self "_kernels" h' = (Ok ks, h') /\
    length ks = 6%nat /\
    foldM (stat_step (zeros2 32 32)) (enumerate ks) (zeros2 (length ks) 2) h'
    = (Ok (repeat [Fin 0; Fin 0] 6), h') /\
    filter self (zeros2 32 32) h' = (Ok (repeat [NaN; NaN] 6), h').
Proof.
  intros Hzero.
  set (ks := kernel_grid default_freq_t 2 [1%Z]).
  assert (Hlen : length ks = 6%nat).
  { apply Nat2Z.inj. unfold ks. rewrite kernel_grid_length by lia.
    reflexivity. }
  pose proof (responses_constant Wrap (zeros2 32 32) (zeros2 32 32) ks Hzero)
    as Hrs.
  rewrite Hlen in Hrs.
  assert (Hrows : stat_rows (repeat (zeros2 32 32) 6)
                  = repeat [Fin 0; Fin 0]%R 6).
  { unfold stat_rows. rewrite map_repeat_const.
    rewrite mean2_zeros, var2_zeros by (simpl; lia).
    rewrite float32_zero. reflexivity. }
  eexists _, _, ks. split; [apply new_spec |].
  set (h' := <[fresh (dom h) := _]> h).
  assert (Hself : h' !! fresh (dom h)
                  = Some (instance_dict ∅ default_freq_t 2 [1%Z] ks))
    by apply lookup_insert_eq.
  assert (Hks : instance_dict ∅ default_freq_t 2 [1%Z] ks !! "_kernels"
                = Some (VArrays ks)) by apply lookup_insert_eq.
  split; [exact (get_arrays_instance _ _ _ _ _ _ Hself Hks) |].
  split; [exact Hlen |].
  split.
  { rewrite <- Hrows. exact (stat_loop (zeros2 32 32) h' ks _ [] Hrs). }
  rewrite (filter_spec h' _ _ ks (zeros2 32 32) _ Hself Hks Hrs).
  rewrite Hrows, normalised_constant by lia. reflexivity.
Qed.

(** ** The calls a client makes on an instance *)

Inductive call : Type :=
| CallCompute (X : list matrix) (y : list Z)
| CallExtract (x : matrix)
| CallFilter (x : matrix).

(** The heap after one call, whether it returned or raised. *)
Definition after_call (self : loc) (c : call) (h : heap) : heap :=
  match c with
  | CallCompute X y => snd (compute self X y h)
  | CallExtract x => snd (extract self x h)
  | CallFilter x => snd (call_filter self x h)
  end.

Definition after_calls (self : loc) (cs : list call) (h : heap) : heap :=
  fold_left (fun h c => after_call self c h) cs h.

Lemma after_calls_same self cs h : after_calls self cs h = h.
Proof.
  revert h. induction cs as [| c cs IH]; intros h; [reflexivity |].
  simpl. rewrite IH. destruct c; simpl.
  - apply read_only_compute.
  - apply read_only_extract.
  - apply read_only_call_filter.
Qed.

(** The size of the bank is set by the constructor and survives every
    sequence of [compute], [extract] and [filter] calls. *)
Lemma bank_size_fixed h freq_t theta_r sigma_tuple cs :
  (0 <= theta_r)%Z ->
  exists self h' ks,
    new freq_t theta_r sigma_tuple h = (Ok self, h') /\
    get_arrays mro self "_kernels" (after_calls self cs h') = (Ok ks, h') /\
    Z.of_nat (length ks)
    = (theta_r * Z.of_nat (length sigma_tuple)
       * Z.of_nat (length freq_t))%Z.
Proof.
  intros Ht. eexists _, _, _. split; [apply new_spec |].
  rewrite after_calls_same. split.
  - eapply get_arrays_instance; apply lookup_insert_eq.
  - apply kernel_grid_length, Ht.
Qed.

(** C10. Provided the base class neither sets nor defines [_prop],
    reading [prop] raises [AttributeError] on every instance, after any
    sequence of calls. *)
Theorem prop_raises_attribute_error h freq_t theta_r sigma_tuple cs :
  base_attrs !! "_prop" = None ->
  base_ns !! "_prop" = None ->
  exists self h',
    new freq_t theta_r sigma_tuple h = (Ok self, h') /\
    prop self (after_calls self cs h')
    = (Raise (AttributeError "_prop"), h').
Proof.
  intros Hattrs Hns. eexists _, _. split; [apply new_spec |].
  rewrite after_calls_same. unfold prop, getattr.
  rewrite lookup_insert_eq. simpl.
  unfold instance_dict. rewrite !lookup_insert_ne by done.
  rewrite lookup_union, Hattrs, lookup_empty. simpl.
  unfold class_ns. rewrite !lookup_insert_ne by done.
  rewrite lookup_empty, Hns. reflexivity.
Qed.

End Ski.

(** ** The statements on concrete instances *)




Definition small_self : loc := fresh (dom (∅ : heap)).

Definition small_dict (sigmas : list Z) : object :=
  instance_dict ∅ ∅ [0.05%float] 1 sigmas
    (map (fun sigma => [[Fin (IZR sigma)]]) sigmas).

Definition small_heap (sigmas : list Z) : heap :=
  <[small_self := small_dict sigmas]> ∅.





(** Means closer than the resolution of [np.float32] are stored as
    equal: the responses of the kernels of weight [2^24] and [2^24 + 1]
    to a one-pixel image have different means, the array holds [2^24]
    for both, and the normalisation of that constant column gives NaN. *)
Lemma close_means_collapse :
  filter Standin.nd_convolve ∅ small_self [[Fin 1]]
    (small_heap [16777216%Z; 16777217%Z])
  = (Ok [[NaN; NaN]; [NaN; NaN]], small_heap [16777216%Z; 16777217%Z]).
Proof.
  rewrite (filter_spec Standin.nd_convolve ∅
             (small_heap [16777216%Z; 16777217%Z]) small_self
             (small_dict [16777216%Z; 16777217%Z])
             [[[Fin 16777216]]; [[Fin 16777217]]] [[Fin 1]]
             [[[Fin (16777216 * 1)]]; [[Fin (16777217 * 1)]]]);
    [| apply lookup_insert_eq | apply lookup_insert_eq | repeat constructor].
  assert (Hrows : stat_rows [[[Fin (16777216 * 1)]]; [[Fin (16777217 * 1)]]]
                  = repeat [Fin 16777216; Fin 0] 2).
  { unfold stat_rows. simpl.
    change (mean2 [[Fin (16777216 * 1)]])
      with (np_mean (map Fin [(16777216 * 1)%R])).
    change (mean2 [[Fin (16777217 * 1)]])
      with (np_mean (map Fin [(16777217 * 1)%R])).
    change (var2 [[Fin (16777216 * 1)]])
      with (np_var (map Fin [(16777216 * 1)%R])).
    change (var2 [[Fin (16777217 * 1)]])
      with (np_var (map Fin [(16777217 * 1)%R])).
    rewrite !np_mean_Fin, !np_var_Fin by discriminate.
    replace (rmean [(16777216 * 1)%R]) with 16777216%R
      by (unfold rmean, rsum; simpl; lra).
    replace (rmean [(16777217 * 1)%R]) with 16777217%R
      by (unfold rmean, rsum; simpl; lra).
    replace (rvar [(16777216 * 1)%R]) with 0%R
      by (unfold rvar, rmean, rsum; simpl; lra).
    replace (rvar [(16777217 * 1)%R]) with 0%R
      by (unfold rvar, rmean, rsum; simpl; lra).
    rewrite float32_two_24, float32_rounds, float32_zero. reflexivity. }
  rewrite Hrows, normalised_constant by lia. reflexivity.
Qed.


Lemma zero_image_all_nan_witness :
  exists self h' ks,
    new Standin.gabor_kernel ∅ ∅ default_freq_t 2 [1%Z] ∅ = (Ok self, h') /\
    get_arrays (mro ∅) self "_kernels" h' = (Ok ks, h') /\
    length ks = 6%nat /\
    foldM (stat_step Standin.nd_convolve (zeros2 32 32))
          (enumerate ks) (zeros2 (length ks) 2) h'
    = (Ok (repeat [Fin 0; Fin 0] 6), h') /\
    filter Standin.nd_convolve ∅ self (zeros2 32 32) h'
    = (Ok (repeat [NaN; NaN] 6), h').
Proof.
  apply (zero_image_all_nan Standin.gabor_kernel Standin.nd_convolve ∅ ∅ ∅).
  intros kernel Hin.
  assert (Hk : kernel = [[Fin 1]]).
  { change (kernel_grid Standin.gabor_kernel default_freq_t 2 [1%Z])
      with (repeat [[Fin 1]] 6) in Hin.
    apply repeat_spec in Hin. exact Hin. }
  subst kernel. unfold Standin.nd_convolve, zeros2.
  rewrite !map_repeat_const. unfold fzero. simpl.
  rewrite Rmult_0_r. reflexivity.
Defined.

Lemma prop_raises_attribute_error_witness :
  exists self h',
    new Standin.gabor_kernel ∅ ∅ [0.05%float] 1 [1%Z] ∅ = (Ok self, h') /\
    prop ∅ self
      (after_calls Standin.nd_convolve Standin.asColumnMatrix ∅ self
         [CallFilter [[Fin 1]]; CallCompute [[[Fin 1]]] [7%Z];
          CallExtract [[Fin 1]]] h')
    = (Raise (AttributeError "_prop"), h').
Proof.
  apply (prop_raises_attribute_error Standin.gabor_kernel
           Standin.nd_convolve Standin.asColumnMatrix ∅ ∅ ∅).
  - apply lookup_empty.
  - apply lookup_empty.
Defined.

End GaborFilterSki.

(* ================================================================= *)
(** * [GaborFilterCv2] *)

Module GaborFilterCv2.

Local Open Scope py_scope.

(** An image of 8-bit pixels, as [cv2.filter2D] returns it for the depth
    [cv2.CV_8UC3]. *)
Abbreviation image := (list (list Z)).

(** [a / n] for a float and a Python integer. *)
Definition py_div (a : float) (n : Z) : result float :=
  if (n =? 0)%Z then Raise ZeroDivisionError
  else Ok (a / float_of_Z n)%float.

(** [int(f)]. *)
Definition py_int (f : float) : result Z :=
  match float_trunc f with
  | Some n => Ok n
  | None => Raise (ValueError "int")
  end.

(** [np.arange(start, stop, step)] on floats: numpy takes
    [ceil((stop - start) / step)] elements, computed in binary64, and
    fills them with [start + i * delta]. *)
Definition arange_length (start stop step : float) : option Z :=
  float_ceil ((stop - start) / step)%float.

Definition np_arange (start stop step : float) : result (list float) :=
  match arange_length start stop step with
  | Some n =>
      let delta := ((start + step) - start)%float in
      Ok (map (fun i => (start + float_of_Z i * delta)%float) (py_range n))
  | None => Raise (ValueError "arange")
  end.

(** [kernel /= c]. *)
Definition divide (kernel : matrix) (c : fval) : matrix :=
  map (map (fun v => fdiv v c)) kernel.

(** [kernel.sum()]. *)
Definition msum (kernel : matrix) : fval := fsum (flat kernel).

Definition zeros_like (x : image) : image := map (map (fun _ => 0%Z)) x.

Definition same_shape (a b : image) : bool :=
  bool_decide (map length a = map length b).

(** [np.maximum(a, b, a)]: the element-wise maximum, written into [a];
    operands of different shapes are refused. *)
Definition np_maximum (a b : image) : result image :=
  if same_shape a b then Ok (zip_with (zip_with Z.max) a b)
  else Raise (ValueError "operands could not be broadcast together").

Section Cv2.

(** [cv2.getGaborKernel(ksize, sigma, theta, lambd, gamma, psi,
    ktype=cv2.CV_32F)]. *)
Variable getGaborKernel :
  Z * Z -> float -> float -> float -> float -> float -> matrix.

(** [cv2.filter2D(x, cv2.CV_8UC3, v)]. *)
Variable filter2D : image -> matrix -> result image.

Variable asColumnMatrix : list image -> result matrix.

Variable base_attrs : object.
Variable base_ns : object.

Definition mro : list object := [base_ns].

(** The body of the two loops of [build_filters]. The module is Python 2
    code (it uses [xrange]): [k_max / 2**scale] divides integers, and
    [int(... + 0.5)] truncates the float. *)
Definition make_kernel (k_max : Z) (lambd theta : float) (scale : Z)
  : result matrix :=
  match py_int (float_of_Z (k_max / 2 ^ scale) + 0.5)%float with
  | Ok ksize =>
      let kernel :=
        getGaborKernel (ksize, ksize) 4.0%float theta lambd 0.5%float
                       0%float in
      Ok (divide kernel (fmul (Fin 1.5) (msum kernel)))
  | Raise e => Raise e
  end.

Definition build_filters (self : loc) : M unit :=
  let* _ := setattr self "_kernels" (VArrays []) in
  let k_max := 199%Z in
  let lambd := 10.0%float in
  let* orient_cnt := get_int mro self "_orient_cnt" in
  let* step := lift (py_div np_pi orient_cnt) in
  let* thetas := lift (np_arange 0 np_pi step) in
  forM thetas (fun theta =>
    let* scale_cnt := get_int mro self "_scale_cnt" in
    forM (py_range scale_cnt) (fun scale =>
      let* kernel := lift (make_kernel k_max lambd theta scale) in
      append_attr self "_kernels" kernel)).

Definition __init__ (self : loc) (orient_cnt scale_cnt : Z) : M unit :=
  let* _ := AbstractFeature.__init__ base_attrs self in
  let* _ := setattr self "_orient_cnt" (VInt orient_cnt) in
  let* _ := setattr self "_scale_cnt" (VInt scale_cnt) in
  let* _ := setattr self "_kernels" (VArrays []) in
  build_filters self.

(** [GaborFilterCv2(orient_cnt, scale_cnt)]. *)
Definition new (orient_cnt scale_cnt : Z) : M loc :=
  let* self := alloc ∅ in
  let* _ := __init__ self orient_cnt scale_cnt in
  ret self.

Definition default_orient_cnt : Z := 8.
Definition default_scale_cnt : Z := 5.

(** The body of the loop of [filter]: the accumulator [accum] is created
    once, before the loop, and every kernel's response is folded into
    it. *)
Definition max_step (x : image) (st : image * list image)
    (item : nat * matrix) : M (image * list image) :=
  let '(accum, feats) := st in
  let '(i, v) := item in
  let* filtered := lift (filter2D x v) in
  let* accum := lift (np_maximum accum filtered) in
  ret (accum, <[i := accum]> feats).

Definition filter (self : loc) (x : image) : M (list image) :=
  let* ks := get_arrays mro self "_kernels" in
  let feats :=
    repeat (repeat (repeat 0%Z (length (hd [] x))) (length x)) (length ks) in
  let accum := zeros_like x in
  let* kernels := get_arrays mro self "_kernels" in
  let* st := foldM (max_step x) (enumerate kernels) (accum, feats) in
  ret (snd st).

Definition compute (self : loc) (X : list image) (y : list Z)
  : M (list (list image)) :=
  let* XC := lift (asColumnMatrix X) in
  mapM (fun x => filter self x) X.

Definition extract (self : loc) (X : image) : M (list image) :=
  filter self X.

(** ** The kernel bank that [build_filters] builds *)

(** The kernel for one orientation and one scale. *)
Definition kernel_of (theta : float) (scale : Z) : matrix :=
  let ksize := (199 / 2 ^ scale)%Z in
  let kernel :=
    getGaborKernel (ksize, ksize) 4.0%float theta 10.0%float 0.5%float
                   0%float in
  divide kernel (fmul (Fin 1.5) (msum kernel)).

Definition kernel_bank (thetas : list float) (scale_cnt : Z) : list matrix :=
  flat_map (fun theta => map (kernel_of theta) (py_range scale_cnt)) thetas.

Definition instance_dict (d0 : object) (orient_cnt scale_cnt : Z)
    (ks : list matrix) : object :=
  <["_kernels" := VArrays ks]>
    (<["_scale_cnt" := VInt scale_cnt]>
       (<["_orient_cnt" := VInt orient_cnt]> (base_attrs ∪ d0))).

(** [int(k_max / 2**scale + 0.5)] is the integer quotient itself: the
    quotient is one of nine integers, and adding one half and truncating
    gives it back. *)
Lemma ksize_exact (scale : Z) :
  (0 <= scale)%Z ->
  py_int (float_of_Z (199 / 2 ^ scale) + 0.5)%float
  = Ok (199 / 2 ^ scale)%Z.
Proof.
  intros Hs. destruct (Z_lt_ge_dec scale 8) as [Hlt | Hge].
  - assert (Hcase : (scale = 0 \/ scale = 1 \/ scale = 2 \/ scale = 3 \/
                     scale = 4 \/ scale = 5 \/ scale = 6 \/ scale = 7)%Z)
      by lia.
    destruct Hcase as [-> | [-> | [-> | [-> | [-> | [-> | [-> | ->]]]]]]];
      vm_compute; reflexivity.
  - assert (Hq : (199 / 2 ^ scale = 0)%Z).
    { apply Z.div_small. split; [lia |].
      apply Z.lt_le_trans with (2 ^ 8)%Z; [reflexivity |].
      apply Z.pow_le_mono_r; lia. }
    rewrite Hq. vm_compute. reflexivity.
Qed.

Lemma make_kernel_spec (theta : float) (scale : Z) :
  (0 <= scale)%Z ->
  make_kernel 199 10.0%float theta scale = Ok (kernel_of theta scale).
Proof.
  intros Hs. unfold make_kernel. rewrite ksize_exact by exact Hs.
  reflexivity.
Qed.

Lemma py_range_nonneg (n : Z) : Forall (fun i => 0 <= i)%Z (py_range n).
Proof.
  unfold py_range. apply Forall_forall. intros i Hi.
  apply list_elem_of_fmap in Hi as [k [-> _]]. lia.
Qed.

Section BuildLoops.

Variables (h : heap) (self : loc) (rest : object) (scale_cnt : Z).
Hypothesis Hscale : rest !! "_scale_cnt" = Some (VInt scale_cnt).

Let state (ks : list matrix) : heap :=
  <[self := <["_kernels" := VArrays ks]> rest]> h.

Lemma append_kernel ks k :
  append_attr self "_kernels" k (state ks) = (Ok tt, state (ks ++ [k])).
Proof using Type.
  unfold append_attr, state. rewrite lookup_insert_eq. simpl.
  rewrite lookup_insert_eq, !insert_insert_eq. reflexivity.
Qed.

Lemma scale_loop (theta : float) (scales : list Z) ks :
  Forall (fun i => 0 <= i)%Z scales ->
  forM scales (fun scale =>
    let* kernel := lift (make_kernel 199 10.0%float theta scale) in
    append_attr self "_kernels" kernel) (state ks)
  = (Ok tt, state (ks ++ map (kernel_of theta) scales)).
Proof using Type.
  intros Hs. revert ks.
  induction Hs as [| sc scales Hsc _ IH]; intros ks; simpl.
  - rewrite app_nil_r. reflexivity.
  - unfold bind at 1. unfold bind at 1. unfold lift at 1.
    rewrite make_kernel_spec by exact Hsc.
    rewrite append_kernel, IH, <- app_assoc. reflexivity.
Qed.

Lemma get_scale_cnt ks :
  get_int mro self "_scale_cnt" (state ks) = (Ok scale_cnt, state ks).
Proof using Hscale.
  apply get_int_instance with (d := <["_kernels" := VArrays ks]> rest).
  - apply lookup_insert_eq.
  - rewrite lookup_insert_ne by done. exact Hscale.
Qed.

Lemma orientation_loop (thetas : list float) ks :
  forM thetas (fun theta =>
    let* scale_cnt := get_int mro self "_scale_cnt" in
    forM (py_range scale_cnt) (fun scale =>
      let* kernel := lift (make_kernel 199 10.0%float theta scale) in
      append_attr self "_kernels" kernel)) (state ks)
  = (Ok tt, state (ks ++ kernel_bank thetas scale_cnt)).
Proof using Hscale.
  revert ks. induction thetas as [| theta thetas IH]; intros ks; simpl.
  - rewrite app_nil_r. reflexivity.
  - unfold bind at 1. unfold bind at 1. rewrite get_scale_cnt.
    rewrite scale_loop by apply py_range_nonneg.
    rewrite IH, <- app_assoc. reflexivity.
Qed.

End BuildLoops.

(** The constructor returns whenever [orient_cnt] is not zero and the
    orientations can be enumerated; the bank then holds one kernel per
    element of [np.arange(0, np.pi, np.pi / orient_cnt)] and scale. *)
Lemma build_init_spec h self d0 orient_cnt scale_cnt thetas :
  h !! self = Some d0 ->
  orient_cnt <> 0%Z ->
  np_arange 0 np_pi (np_pi / float_of_Z orient_cnt)%float = Ok thetas ->
  __init__ self orient_cnt scale_cnt h
  = (Ok tt, <[self := instance_dict d0 orient_cnt scale_cnt
                        (kernel_bank thetas scale_cnt)]> h).
Proof.
  intros Hd Hne Hth. unfold __init__.
  unfold bind at 1. unfold AbstractFeature.__init__ at 1. rewrite Hd.
  unfold bind at 1. rewrite GaborFilterSki.setattr_at.
  unfold bind at 1. rewrite GaborFilterSki.setattr_at.
  unfold bind at 1. rewrite GaborFilterSki.setattr_at.
  unfold build_filters.
  unfold bind at 1. rewrite GaborFilterSki.setattr_at, insert_insert_eq.
  set (rest := <["_scale_cnt" := VInt scale_cnt]> _).
  assert (Ho : rest !! "_orient_cnt" = Some (VInt orient_cnt)).
  { unfold rest. rewrite lookup_insert_ne by done. apply lookup_insert_eq. }
  assert (Hs : rest !! "_scale_cnt" = Some (VInt scale_cnt)).
  { unfold rest. apply lookup_insert_eq. }
  unfold bind at 1.
  rewrite (get_int_instance mro _ self (<["_kernels" := VArrays []]> rest)
             "_orient_cnt" orient_cnt).
  2:{ apply lookup_insert_eq. }
  2:{ rewrite lookup_insert_ne by done. exact Ho. }
  unfold bind at 1. unfold lift at 1. unfold py_div.
  destruct (Z.eqb_spec orient_cnt 0) as [E | _]; [contradiction |].
  unfold bind at 1. unfold lift at 1. rewrite Hth.
  rewrite (orientation_loop h self rest scale_cnt Hs thetas []). reflexivity.
Qed.

Lemma build_new_spec h orient_cnt scale_cnt thetas :
  orient_cnt <> 0%Z ->
  np_arange 0 np_pi (np_pi / float_of_Z orient_cnt)%float = Ok thetas ->
  new orient_cnt scale_cnt h
  = (Ok (fresh (dom h)),
     <[fresh (dom h) := instance_dict ∅ orient_cnt scale_cnt
                          (kernel_bank thetas scale_cnt)]> h).
Proof.
  intros Hne Hth. unfold new, bind at 1, alloc.
  unfold bind at 1.
  rewrite build_init_spec with (d0 := ∅) (thetas := thetas);
    [| apply lookup_insert_eq | exact Hne | exact Hth].
  rewrite insert_insert_eq. reflexivity.
Qed.

(** [orient_cnt = 0] makes [np.pi / self._orient_cnt] raise. *)
Lemma new_zero_orientations h scale_cnt :
  fst (new 0 scale_cnt h) = Raise ZeroDivisionError.
Proof.
  unfold new, bind at 1, alloc. unfold bind at 1. unfold __init__.
  unfold bind at 1. unfold AbstractFeature.__init__ at 1.
  rewrite lookup_insert_eq.
  unfold bind at 1. rewrite GaborFilterSki.setattr_at.
  unfold bind at 1. rewrite GaborFilterSki.setattr_at.
  unfold bind at 1. rewrite GaborFilterSki.setattr_at.
  unfold build_filters.
  unfold bind at 1. rewrite GaborFilterSki.setattr_at.
  unfold bind at 1.
  rewrite (get_int_instance mro _ _ _ "_orient_cnt" 0%Z
             (lookup_insert_eq _ _ _)).
  - reflexivity.
  - rewrite !lookup_insert_ne by done. apply lookup_insert_eq.
Qed.

Lemma kernel_bank_length (thetas : list float) (scale_cnt : Z) :
  (0 <= scale_cnt)%Z ->
  Z.of_nat (length (kernel_bank thetas scale_cnt))
  = (Z.of_nat (length thetas) * scale_cnt)%Z.
Proof.
  intros Hs. unfold kernel_bank.
  rewrite (GaborFilterSki.flat_map_length_const _
             (length (py_range scale_cnt))).
  - rewrite Nat2Z.inj_mul, py_range_length by exact Hs. reflexivity.
  - intros theta. apply length_map.
Qed.

(** How many orientations [np.arange] enumerates. *)
Lemma np_arange_length (step : float) (n : Z) (thetas : list float) :
  arange_length 0 np_pi step = Some n ->
  np_arange 0 np_pi step = Ok thetas ->
  Z.of_nat (length thetas) = Z.max 0 n.
Proof.
  intros Hn. unfold np_arange. rewrite Hn. intros [= <-].
  rewrite length_map. unfold py_range. rewrite length_map, length_seq. lia.
Qed.

Lemma np_arange_ok (step : float) (n : Z) :
  arange_length 0 np_pi step = Some n ->
  exists thetas,
    np_arange 0 np_pi step = Ok thetas /\
    Z.of_nat (length thetas) = Z.max 0 n.
Proof.
  intros Hn. unfold np_arange. rewrite Hn. eexists. split; [reflexivity |].
  rewrite length_map. unfold py_range. rewrite length_map, length_seq. lia.
Qed.

(** The size of the bank in terms of what [np.arange] enumerates. *)
Lemma bank_size h orient_cnt scale_cnt n :
  orient_cnt <> 0%Z -> (0 <= scale_cnt)%Z ->
  arange_length 0 np_pi (np_pi / float_of_Z orient_cnt)%float = Some n ->
  exists self h' ks,
    new orient_cnt scale_cnt h = (Ok self, h') /\
    get_arrays mro self "_kernels" h' = (Ok ks, h') /\
    Z.of_nat (length ks) = (Z.max 0 n * scale_cnt)%Z.
Proof.
  intros Hne Hs Hn. destruct (np_arange_ok _ _ Hn) as (thetas & Hth & Hlen).
  eexists _, _, _. split; [apply (build_new_spec h _ _ thetas Hne Hth) |].
  split.
  - eapply get_arrays_instance; apply lookup_insert_eq.
  - rewrite kernel_bank_length by exact Hs. now rewrite Hlen.
Qed.


(** For 61 orientations the quotient [pi / (pi / 61)] rounds to
    61.000000000000007, whose ceiling is 62. *)
Lemma arange_sixty_one :
  arange_length 0 np_pi (np_pi / float_of_Z 61)%float = Some 62%Z.
Proof. vm_compute. reflexivity. Qed.

(** C2 at its failing input: [GaborFilterCv2(orient_cnt=61, scale_cnt=1)]
    holds 62 kernels, not 61 x 1. *)
Theorem sixty_one_orientations h :
  exists self h' ks,
    new 61 1 h = (Ok self, h') /\
    get_arrays mro self "_kernels" h' = (Ok ks, h') /\
    length ks = 62%nat.
Proof.
  destruct (bank_size h 61 1 62) as (self & h' & ks & Hnew & Hks & Hlen).
  - discriminate.
  - lia.
  - apply arange_sixty_one.
  - exists self, h', ks. repeat split; [exact Hnew | exact Hks | lia].
Qed.

(** ** No method other than the constructor writes to the heap *)

Lemma read_only_cv_filter self x : read_only (filter self x).
Proof.
  unfold filter.
  apply read_only_bind; [apply read_only_get_arrays | intros ks].
  apply read_only_bind; [apply read_only_get_arrays | intros kernels].
  apply read_only_bind; [| intros st; apply read_only_ret].
  apply read_only_foldM. intros [accum feats] [i v].
  apply read_only_bind; [apply read_only_lift | intros r].
  apply read_only_bind; [apply read_only_lift | intros a].
  apply read_only_ret.
Qed.

Lemma read_only_cv_compute self X y : read_only (compute self X y).
Proof.
  apply read_only_bind; [apply read_only_lift | intros _].
  apply read_only_mapM. intros x. apply read_only_cv_filter.
Qed.

Lemma read_only_cv_extract self X : read_only (extract self X).
Proof. apply read_only_cv_filter. Qed.

(** ** What [filter] returns *)

Definition maximum (a b : image) : image := zip_with (zip_with Z.max) a b.

(** The slices of a maximum that runs through the responses. *)
Fixpoint running_max (accum : image) (responses : list image)
  : list image :=
  match responses with
  | [] => []
  | r :: rs => maximum accum r :: running_max (maximum accum r) rs
  end.

(** The slices the specification describes: each response maximised on
    its own. *)
Definition own_max (x : image) (responses : list image) : list image :=
  map (fun r => maximum (zeros_like x) r) responses.

Lemma shape_zeros_like (x : image) :
  map length (zeros_like x) = map length x.
Proof.
  unfold zeros_like. rewrite map_map. apply map_ext. intros row.
  apply length_map.
Qed.

Lemma shape_maximum (a b : image) :
  map length a = map length b -> map length (maximum a b) = map length a.
Proof.
  revert b. induction a as [| ra a IH]; intros [| rb b] H;
    simpl in *; try discriminate; [reflexivity |].
  injection H as Hr Ht. f_equal.
  - rewrite length_zip_with. lia.
  - apply IH, Ht.
Qed.

Lemma insert_at_length {A} (done : list A) (p v : A) (rest : list A) :
  <[length done := v]> (done ++ p :: rest) = done ++ v :: rest.
Proof.
  induction done as [| a done IH]; simpl; [reflexivity | now rewrite IH].
Qed.

Lemma max_loop x h (ks : list matrix) (rs : list image) :
  Forall2 (fun v r => filter2D x v = Ok r) ks rs ->
  Forall (fun r => map length r = map length x) rs ->
  forall (accum : image) (done pad : list image),
    map length accum = map length x ->
    length pad = length ks ->
    exists final,
      foldM (max_step x) (enumerate_from (length done) ks)
            (accum, done ++ pad) h
      = (Ok (final, done ++ running_max accum rs), h).
Proof.
  intros Hrs. induction Hrs as [| v r ks rs Hv _ IH];
    intros Hshape accum done pad Hacc Hpad.
  - destruct pad; [| discriminate]. eexists. reflexivity.
  - destruct pad as [| p pad]; [discriminate |].
    inversion Hshape as [| ? ? Hr Hshape']; subst.
    simpl. unfold bind at 1. unfold max_step at 1.
    unfold bind at 1. unfold lift at 1. rewrite Hv.
    unfold bind at 1. unfold lift at 1. unfold np_maximum, same_shape.
    rewrite bool_decide_eq_true_2 by (now rewrite Hacc, Hr).
    unfold ret at 1. rewrite insert_at_length.
    destruct (IH Hshape' (maximum accum r) (done ++ [maximum accum r]) pad)
      as [final Hfinal].
    + rewrite shape_maximum by (now rewrite Hacc, Hr). exact Hacc.
    + simpl in Hpad. lia.
    + exists final. rewrite length_app, Nat.add_1_r, <- !app_assoc in Hfinal.
      exact Hfinal.
Qed.

Lemma running_max_lookup (rs : list image) (accum : image) (i : nat) :
  (i < length rs)%nat ->
  running_max accum rs !! i
  = Some (fold_left maximum (take (S i) rs) accum).
Proof.
  revert accum i. induction rs as [| r rs IH]; intros accum i Hi;
    simpl in Hi; [lia |].
  destruct i as [| i]; [reflexivity |].
  simpl. apply IH. lia.
Qed.

Lemma running_max_length (accum : image) (rs : list image) :
  length (running_max accum rs) = length rs.
Proof.
  revert accum. induction rs as [| r rs IH]; intros accum; simpl;
    [reflexivity | now rewrite IH].
Qed.

(** [filter] returns, and what it returns are the slices of the running
    maximum. *)
Lemma running_filter_spec h self d ks x rs :
  h !! self = Some d ->
  d !! "_kernels" = Some (VArrays ks) ->
  Forall2 (fun v r => filter2D x v = Ok r) ks rs ->
  Forall (fun r => map length r = map length x) rs ->
  filter self x h = (Ok (running_max (zeros_like x) rs), h).
Proof.
  intros Hd Hk Hrs Hshape. unfold filter.
  pose proof (get_arrays_instance mro h self d "_kernels" ks Hd Hk) as Hget.
  unfold bind at 1. rewrite Hget.
  unfold bind at 1. rewrite Hget.
  unfold bind at 1. unfold enumerate.
  destruct (max_loop x h ks rs Hrs Hshape (zeros_like x) []
              (repeat (repeat (repeat 0%Z (length (hd [] x))) (length x))
                      (length ks)))
    as [final Hfinal].
  - apply shape_zeros_like.
  - apply repeat_length.
  - simpl in Hfinal. rewrite Hfinal. reflexivity.
Qed.

(** C3, as the code has it. When the filtering primitive returns an
    image of the shape of [x] for every kernel, slice [i] of [filter(x)]
    is the element-wise maximum of the zero image and the responses of
    the kernels 0 to [i]: a maximum accumulated over all the kernels
    processed so far. *)
Theorem filter_running_maximum h self d ks x rs :
  h !! self = Some d ->
  d !! "_kernels" = Some (VArrays ks) ->
  Forall2 (fun v r => filter2D x v = Ok r) ks rs ->
  Forall (fun r => map length r = map length x) rs ->
  filter self x h = (Ok (running_max (zeros_like x) rs), h) /\
  length (running_max (zeros_like x) rs) = length ks /\
  forall i, (i < length ks)%nat ->
    running_max (zeros_like x) rs !! i
    = Some (fold_left maximum (take (S i) rs) (zeros_like x)).
Proof.
  intros Hd Hk Hrs Hshape.
  pose proof (Forall2_length _ _ _ Hrs) as Hlen.
  split; [exact (running_filter_spec h self d ks x rs Hd Hk Hrs Hshape) |].
  split; [rewrite running_max_length; now symmetry |].
  intros i Hi. apply running_max_lookup. lia.
Qed.

End Cv2.

(** ** The statements on a concrete instance *)

(** Two orientations and one scale, with the one-row kernels. *)
Definition two_orientations : M loc := new Standin.getGaborKernel ∅ ∅ 2 1.

Definition first_kernel : matrix :=
  kernel_of Standin.getGaborKernel 0%float 0.
Definition second_kernel : matrix :=
  kernel_of Standin.getGaborKernel (0 + float_of_Z 1 * (0 + np_pi / float_of_Z 2 - 0))%float 0.

Lemma two_orientations_spec :
  two_orientations ∅
  = (Ok (fresh (dom (∅ : heap))),
     <[fresh (dom (∅ : heap)) :=
         instance_dict ∅ ∅ 2 1 [first_kernel; second_kernel]]> ∅).
Proof.
  unfold two_orientations.
  rewrite (build_new_spec Standin.getGaborKernel ∅ ∅ ∅ 2 1
             [0%float;
              (0 + float_of_Z 1 * (0 + np_pi / float_of_Z 2 - 0))%float]).
  - reflexivity.
  - discriminate.
  - vm_compute. reflexivity.
Qed.

Lemma first_response (x : image) :
  Standin.filter2D x first_kernel = Ok x.
Proof.
  unfold first_kernel, kernel_of.
  change (Standin.getGaborKernel _ _ 0%float _ _ _) with [[Fin 3; Fin 0]].
  cbv [divide msum flat map concat app fsum fold_right fadd fmul fzero].
  rewrite !fdiv_Fin by lra. unfold Standin.filter2D.
  destruct (Rlt_dec (1 / 2) (3 / (1.5 * (3 + (0 + 0))))) as [_ | Hn];
    [reflexivity |].
  exfalso. apply Hn.
  replace (1.5 * (3 + (0 + 0)))%R with 4.5%R by lra. lra.
Qed.

Lemma second_response (x : image) :
  Standin.filter2D x second_kernel = Ok (zeros_like x).
Proof.
  unfold second_kernel, kernel_of.
  change (Standin.getGaborKernel _ _ _ _ _ _) with [[Fin 1; Fin 2]].
  cbv [divide msum flat map concat app fsum fold_right fadd fmul fzero].
  rewrite !fdiv_Fin by lra. unfold Standin.filter2D.
  destruct (Rlt_dec (1 / 2) (1 / (1.5 * (1 + (2 + 0))))) as [Hlt | _];
    [| reflexivity].
  exfalso.
  replace (1.5 * (1 + (2 + 0)))%R with 4.5%R in Hlt by lra. lra.
Qed.

(** C3 as stated fails on a bank of two orientations whose first response
    is the image and whose second response is zero: the second slice is
    the first response again, not the maximum of the second. *)
Lemma second_slice_repeats_first :
  exists self h,
    two_orientations ∅ = (Ok self, h) /\
    Standin.filter2D [[5%Z]] first_kernel = Ok [[5%Z]] /\
    Standin.filter2D [[5%Z]] second_kernel = Ok [[0%Z]] /\
    filter Standin.filter2D ∅ self [[5%Z]] h
    = (Ok [[[5%Z]]; [[5%Z]]], h) /\
    own_max [[5%Z]] [[[5%Z]]; [[0%Z]]] = [[[5%Z]]; [[0%Z]]] /\
    [[[5%Z]]; [[5%Z]]] <> own_max [[5%Z]] [[[5%Z]]; [[0%Z]]].
Proof.
  eexists _, _. split; [apply two_orientations_spec |].
  split; [apply first_response |].
  split; [apply second_response |].
  split; [| split; [reflexivity | discriminate]].
  apply (running_filter_spec Standin.filter2D ∅ _ _
           (instance_dict ∅ ∅ 2 1 [first_kernel; second_kernel])
           [first_kernel; second_kernel] [[5%Z]] [[[5%Z]]; [[0%Z]]]).
  - apply lookup_insert_eq.
  - apply lookup_insert_eq.
  - constructor; [apply first_response |].
    constructor; [apply second_response | constructor].
  - repeat constructor.
Qed.

Lemma filter_running_maximum_witness :
  exists self h,
    two_orientations ∅ = (Ok self, h) /\
    filter Standin.filter2D ∅ self [[5%Z]] h
    = (Ok [[[5%Z]]; [[5%Z]]], h) /\
    [[[5%Z]]; [[5%Z]]] !! 1%nat
    = Some (fold_left maximum [[[5%Z]]; [[0%Z]]] [[0%Z]]).
Proof.
  eexists _, _. split; [apply two_orientations_spec |].
  destruct (filter_running_maximum Standin.filter2D ∅
              (<[fresh (dom (∅ : heap)) :=
                   instance_dict ∅ ∅ 2 1 [first_kernel; second_kernel]]> ∅)
              (fresh (dom (∅ : heap)))
              (instance_dict ∅ ∅ 2 1 [first_kernel; second_kernel])
              [first_kernel; second_kernel] [[5%Z]] [[[5%Z]]; [[0%Z]]])
    as (Hf & _ & Hslice).
  - apply lookup_insert_eq.
  - apply lookup_insert_eq.
  - constructor; [apply first_response |].
    constructor; [apply second_response | constructor].
  - repeat constructor.
  - split; [exact Hf |]. apply (Hslice 1%nat). simpl. lia.
Defined.

End GaborFilterCv2.

(* ================================================================= *)
(** * The spatial histograms *)

Module SpatialHistogram.

Section Histograms.

(** The LBP operators, [ExtendedLBP()] among them, and the primitive that
    computes the LBP histogram of the cell (row, col) of a response map
    cut into a grid of [sz] cells. *)
Variable lbp : Type.
Variable ExtendedLBP : lbp.
Variable cell_histogram : lbp -> nat * nat -> matrix -> nat -> nat -> result vector.

Inductive variant : Type := MultiScale | Concatenated.

(** An instance: which of the two subclasses it is, and the two
    attributes their constructors pass on to the base class. *)
Record instance : Type := {
  cls : variant;
  lbp_operator : lbp;
  sz : nat * nat
}.

(** [MultiScaleSpatialHistogram()] and [ConcatenatedSpatialHistogram()]
    with their default arguments. *)
Definition MultiScaleSpatialHistogram : instance :=
  {| cls := MultiScale; lbp_operator := ExtendedLBP; sz := (8, 8)%nat |}.
Definition ConcatenatedSpatialHistogram : instance :=
  {| cls := Concatenated; lbp_operator := ExtendedLBP; sz := (8, 8)%nat |}.

(** The cells of the grid, row by row. *)
Definition cells (sz : nat * nat) : list (nat * nat) :=
  flat_map (fun row => map (fun col => (row, col)) (seq 0 (snd sz)))
           (seq 0 (fst sz)).

Definition cell_count (self : instance) : nat :=
  (fst (sz self) * snd (sz self))%nat.

(** The histograms of the cells of one response map, one per cell. *)
Definition cell_histograms (self : instance) (x : matrix)
  : result (list vector) :=
  collect (fun '(row, col) =>
             cell_histogram (lbp_operator self) (sz self) x row col)
          (cells (sz self)).

(** Modelled from the spec: [SpatialHistogram.spatially_enhanced_histogram]
    of [facerec_py.facerec.feature], the method both subclasses reach by
    [super]. The specification describes it as partitioning a response
    map into the grid and computing one LBP histogram per cell; the
    histograms of the cells follow one another in the vector returned. *)
Definition base_spatially_enhanced_histogram (self : instance) (x : matrix)
  : result vector :=
  and_then (cell_histograms self x) (fun hs => Ok (concat hs)).

(** [MultiScaleSpatialHistogram.spatially_enhanced_histogram]: one entry
    per element of the stack [X]. *)
Definition multi_scale_histogram (self : instance) (X : tensor)
  : result matrix :=
  collect (base_spatially_enhanced_histogram self) X.

(** [ConcatenatedSpatialHistogram.spatially_enhanced_histogram]: the
    entries joined end to end. *)
Definition concatenated_histogram (self : instance) (X : tensor)
  : result vector :=
  and_then (collect (base_spatially_enhanced_histogram self) X)
           (fun hists => Ok (concat hists)).

(** [self.spatially_enhanced_histogram(X)], resolved by the class of the
    instance. *)
Definition spatially_enhanced_histogram (self : instance) (X : tensor)
  : result ndarray :=
  match cls self with
  | MultiScale =>
      and_then (multi_scale_histogram self X) (fun a => Ok (Arr2 a))
  | Concatenated =>
      and_then (concatenated_histogram self X) (fun a => Ok (Arr1 a))
  end.

(** Iterating a Gabor response: the histograms are defined on a stack of
    maps; the rows of a two-dimensional array are not maps. *)
Definition as_stack (a : ndarray) : result tensor :=
  match a with
  | Arr3 t => Ok t
  | _ => Raise (ValueError "a stack of response maps is expected")
  end.

(** Modelled from the spec: [SpatialHistogram.extract] and
    [SpatialHistogram.compute] of [facerec_py.facerec.feature]. The
    specification has [extract] apply the histogram to one input and
    [compute] apply it to every element of a list, the labels being
    "needed only by the Fisherfaces stage, ignored by others". *)
Definition extract (self : instance) (X : ndarray) : result ndarray :=
  and_then (as_stack X) (spatially_enhanced_histogram self).

Definition compute (self : instance) (X : list ndarray) (y : list Z)
  : result (list ndarray) :=
  collect (extract self) X.

(** ** Lengths *)

Definition total_length (hs : list vector) : nat :=
  list_sum (map (@length fval) hs).

Lemma concat_total_length (hs : list vector) :
  length (concat hs) = total_length hs.
Proof.
  unfold total_length. induction hs as [| hv hs IH]; simpl;
    [reflexivity |].
  rewrite length_app, IH. reflexivity.
Qed.

Lemma concat_map_concat {A} (l : list (list (list A))) :
  concat (map (@concat A) l) = concat (concat l).
Proof.
  induction l as [| a l IH]; simpl; [reflexivity |].
  rewrite concat_app, IH. reflexivity.
Qed.

Lemma collect_length {A B} (f : A -> result B) (l : list A) (bs : list B) :
  collect f l = Ok bs -> length bs = length l.
Proof.
  revert bs. induction l as [| a l IH]; intros bs; simpl.
  - intros [= <-]. reflexivity.
  - destruct (f a) as [b | e]; simpl; [| discriminate].
    destruct (collect f l) as [bs' | e]; simpl; [| discriminate].
    intros [= <-]. simpl. f_equal. apply IH. reflexivity.
Qed.

Lemma collect_Forall2 {A B} (f : A -> result B) (l : list A) (bs : list B) :
  Forall2 (fun a b => f a = Ok b) l bs -> collect f l = Ok bs.
Proof.
  induction 1 as [| a b l bs Hab _ IH]; simpl; [reflexivity |].
  rewrite Hab. simpl. rewrite IH. reflexivity.
Qed.

Lemma cells_length (sz : nat * nat) :
  length (cells sz) = (fst sz * snd sz)%nat.
Proof.
  unfold cells.
  rewrite (GaborFilterSki.flat_map_length_const _ (snd sz)).
  - now rewrite length_seq.
  - intros row. now rewrite length_map, length_seq.
Qed.

(** C6, as the code has it. [per_cell] lists, for every response map of
    the stack, the histograms of its cells. The concatenated variant
    returns a vector as long as all these histograms together. The
    multi-scale variant returns one entry per response map of the stack;
    each entry joins the histograms of the cells of that map. *)
Theorem histogram_lengths (self : instance) (X : tensor)
    (per_cell : list (list vector)) :
  Forall2 (fun x hs => cell_histograms self x = Ok hs) X per_cell ->
  Forall (fun hs => length hs = cell_count self) per_cell /\
  (exists v,
     concatenated_histogram self X = Ok v /\
     v = concat (concat per_cell) /\
     length v = total_length (concat per_cell)) /\
  (exists rows,
     multi_scale_histogram self X = Ok rows /\
     rows = map (@concat fval) per_cell /\
     length rows = length X).
Proof.
  intros Hcells.
  assert (Hbase : Forall2 (fun x hv =>
                    base_spatially_enhanced_histogram self x = Ok hv)
                    X (map (@concat fval) per_cell)).
  { induction Hcells as [| x hs X per_cell Hx _ IH]; simpl; constructor.
    - unfold base_spatially_enhanced_histogram. rewrite Hx. reflexivity.
    - exact IH. }
  pose proof (collect_Forall2 _ _ _ Hbase) as Hcollect.
  split; [| split].
  - clear Hbase Hcollect.
    induction Hcells as [| x hs X per_cell Hx _ IH]; constructor.
    + unfold cell_histograms in Hx. apply collect_length in Hx.
      rewrite Hx. apply cells_length.
    + exact IH.
  - exists (concat (concat per_cell)). split; [| split].
    + unfold concatenated_histogram. rewrite Hcollect. simpl.
      rewrite concat_map_concat. reflexivity.
    + reflexivity.
    + apply concat_total_length.
  - exists (map (@concat fval) per_cell). split; [exact Hcollect |].
    split; [reflexivity |].
    rewrite length_map. symmetry. apply (Forall2_length _ _ _ Hcells).
Qed.

End Histograms.

(** ** The statements on a concrete stack *)

(** An LBP primitive whose histograms have the single bin [1]. *)
Definition one_bin (op : unit) (sz : nat * nat) (x : matrix)
    (row col : nat) : result vector :=
  Ok [Fin 1].

(** C6 as stated fails for the multi-scale variant: on a stack of one
    response map and the default 8 x 8 grid it returns one entry, while
    the grid has 64 cells. *)
Lemma one_map_sixty_four_cells :
  exists rows,
    multi_scale_histogram unit one_bin
      (MultiScaleSpatialHistogram unit tt) [[[Fin 1]]] = Ok rows /\
    length rows = 1%nat /\
    cell_count unit (MultiScaleSpatialHistogram unit tt) = 64%nat /\
    length rows <> cell_count unit (MultiScaleSpatialHistogram unit tt).
Proof.
  eexists. split; [vm_compute; reflexivity |].
  split; [reflexivity |]. split; [reflexivity |]. discriminate.
Qed.

Lemma histogram_lengths_witness :
  exists v rows,
    concatenated_histogram unit one_bin
      (ConcatenatedSpatialHistogram unit tt) [[[Fin 1]]; [[Fin 2]]] = Ok v /\
    length v = 128%nat /\
    multi_scale_histogram unit one_bin
      (MultiScaleSpatialHistogram unit tt) [[[Fin 1]]; [[Fin 2]]] = Ok rows /\
    length rows = 2%nat.
Proof.
  destruct (histogram_lengths unit one_bin
              (ConcatenatedSpatialHistogram unit tt)
              [[[Fin 1]]; [[Fin 2]]]
              [repeat [Fin 1] 64; repeat [Fin 1] 64])
    as (_ & (v & Hv & _ & Hlen) & _).
  { repeat constructor. }
  destruct (histogram_lengths unit one_bin
              (MultiScaleSpatialHistogram unit tt)
              [[[Fin 1]]; [[Fin 2]]]
              [repeat [Fin 1] 64; repeat [Fin 1] 64])
    as (_ & _ & (rows & Hrows & _ & Hn)).
  { repeat constructor. }
  exists v, rows. split; [exact Hv |]. split; [| split; [exact Hrows |]].
  - rewrite Hlen. reflexivity.
  - exact Hn.
Defined.

End SpatialHistogram.

(* ================================================================= *)
(** * Feature operators and their composition *)

Module Operators.

Local Open Scope py_scope.

(** What a chain sees of a feature operator: its two methods. They act
    on the heap, where the object behind the operator lives. *)
Record operator (X Y : Type) : Type := {
  op_compute : list X -> list Z -> M (list Y);
  op_extract : X -> M Y
}.
Arguments op_compute {X Y} _ _ _.
Arguments op_extract {X Y} _ _.

(** Modelled from the spec: [ChainOperator] of
    [facerec_py.facerec.operators], which is not among the sources. The
    specification gives its contract: "compute(X, y) calls A.compute, then
    feeds A's output list into B.compute; extract(x) calls A.extract,
    feeds into B.extract", with no error translation. *)
Definition ChainOperator {X Y W} (model1 : operator X Y)
    (model2 : operator Y W) : operator X W :=
  {| op_compute := fun X0 y =>
       let* X1 := op_compute model1 X0 y in
       op_compute model2 X1 y;
     op_extract := fun x =>
       let* x1 := op_extract model1 x in
       op_extract model2 x1 |}.

(** An operator without state: its methods are functions of their
    arguments. *)
Definition stateless {X Y} (compute : list X -> list Z -> result (list Y))
    (extract : X -> result Y) : operator X Y :=
  {| op_compute := fun X0 y => lift (compute X0 y);
     op_extract := fun x => lift (extract x) |}.

(** A stateless operator: its methods may read the heap (a kernel bank
    lives there) and leave it as it was. *)
Definition is_stateless {X Y} (A : operator X Y) : Prop :=
  (forall X0 y, read_only (op_compute A X0 y)) /\
  (forall x, read_only (op_extract A x)).

Lemma stateless_is_stateless {X Y}
    (compute : list X -> list Z -> result (list Y))
    (extract : X -> result Y) :
  is_stateless (stateless compute extract).
Proof. split; intros; apply read_only_lift. Qed.

(** C7. For stateless operators [A] and [B],
    [ChainOperator(A, B).extract(x)] is [B.extract(A.extract(x))], and
    [ChainOperator(A, B).compute(X, y)] is [B.compute] on the list that
    [A.compute(X, y)] returns and on [y]; a failure of [A] is the failure
    of the chain, and the chain leaves the heap as it was. *)
Theorem chain_is_composition {X Y W} (A : operator X Y) (B : operator Y W)
    (x : X) (X0 : list X) (y : list Z) (h : heap) :
  is_stateless A -> is_stateless B ->
  op_extract (ChainOperator A B) x h
  = (and_then (fst (op_extract A x h)) (fun a => fst (op_extract B a h)),
     h) /\
  op_compute (ChainOperator A B) X0 y h
  = (and_then (fst (op_compute A X0 y h))
              (fun X1 => fst (op_compute B X1 y h)), h).
Proof.
  intros [HAc HAe] [HBc HBe]. simpl. unfold bind. split.
  - pose proof (HAe x h) as Ha.
    destruct (op_extract A x h) as [[a | e] h1]; simpl in Ha; subst h1;
      [| reflexivity].
    pose proof (HBe a h) as Hb.
    destruct (op_extract B a h) as [r h2] eqn:Eb; simpl in Hb; subst h2.
    simpl. rewrite Eb. reflexivity.
  - pose proof (HAc X0 y h) as Ha.
    destruct (op_compute A X0 y h) as [[X1 | e] h1]; simpl in Ha; subst h1;
      [| reflexivity].
    pose proof (HBc X1 y h) as Hb.
    destruct (op_compute B X1 y h) as [r h2] eqn:Eb; simpl in Hb; subst h2.
    simpl. rewrite Eb. reflexivity.
Qed.

(** The same equations for operators with state: the chain runs the
    first stage, then the second stage in the heap the first one left. *)
Lemma chain_extract_stateful {X Y W} (A : operator X Y) (B : operator Y W)
    (x : X) (h h1 : heap) (a : Y) :
  op_extract A x h = (Ok a, h1) ->
  op_extract (ChainOperator A B) x h = op_extract B a h1.
Proof. intros HA. simpl. unfold bind. rewrite HA. reflexivity. Qed.

Lemma chain_compute_stateful {X Y W} (A : operator X Y) (B : operator Y W)
    (X0 : list X) (y : list Z) (h h1 : heap) (X1 : list Y) :
  op_compute A X0 y h = (Ok X1, h1) ->
  op_compute (ChainOperator A B) X0 y h = op_compute B X1 y h1.
Proof. intros HA. simpl. unfold bind. rewrite HA. reflexivity. Qed.

Lemma chain_extract_failure {X Y W} (A : operator X Y) (B : operator Y W)
    (x : X) (h h1 : heap) (e : exn) :
  op_extract A x h = (Raise e, h1) ->
  op_extract (ChainOperator A B) x h = (Raise e, h1).
Proof. intros HA. simpl. unfold bind. rewrite HA. reflexivity. Qed.

End Operators.
Export Operators.

(* ================================================================= *)
(** * The composite pipelines *)

Module Pipelines.

Local Open Scope py_scope.

Section Pipelines.

Variable gabor_kernel : float -> float -> Z -> Z -> list (list (fval * fval)).
Variable nd_convolve : matrix -> matrix -> boundary -> fval -> result matrix.
Variable asColumnMatrix : list matrix -> result matrix.
Variable base_attrs : object.
Variable base_ns : object.

Variable lbp : Type.
Variable ExtendedLBP : lbp.
Variable cell_histogram : lbp -> nat * nat -> matrix -> nat -> nat -> result vector.

(** The Fisherfaces primitives: the fit of the projection on a labelled
    batch, and the projection of one sample. *)
Variable fisher_fit : Z -> list ndarray -> list Z -> result matrix.
Variable fisher_project : matrix -> ndarray -> result ndarray.

(** What [Fisherfaces.extract] does with a sample before anything was
    fitted. The class is not among the sources and the specification
    calls it "undefined/failing behavior, not guarded": every outcome, a
    value or any exception, is an instance of this parameter. *)
Variable unfitted_extract : ndarray -> result ndarray.

(** The OpenCV primitives of [GaborFilterCv2]. *)
Variable filter2D : list (list Z) -> matrix -> result (list (list Z)).
Variable imagesAsColumnMatrix : list (list (list Z)) -> result matrix.

Abbreviation ski_mro := (GaborFilterSki.mro base_ns).

(** A [GaborFilterSki] instance as a stage of a chain. *)
Definition ski_operator (self : loc) : operator matrix ndarray :=
  {| op_compute := GaborFilterSki.compute nd_convolve asColumnMatrix
                     base_ns self;
     op_extract := GaborFilterSki.extract nd_convolve base_ns self |}.

(** A spatial histogram as a stage of a chain. *)
Definition histogram_operator (self : SpatialHistogram.instance lbp)
  : operator ndarray ndarray :=
  stateless (SpatialHistogram.compute lbp cell_histogram self)
            (SpatialHistogram.extract lbp cell_histogram self).

Definition get_ref (mro : list object) (self : loc) (name : string) : M loc :=
  let* v := getattr mro self name in
  match v with VRef l => ret l | _ => raise (TypeError name) end.

Definition get_array (mro : list object) (self : loc) (name : string)
  : M matrix :=
  let* v := getattr mro self name in
  match v with VArray a => ret a | _ => raise (TypeError name) end.

(** ** [LGBPHS] *)

Record LGBPHS : Type := { _model : operator matrix ndarray }.

(** [LGBPHS()]: a raw-mode Gabor bank chained into the multi-scale
    histogram. *)
Definition LGBPHS_new : M LGBPHS :=
  let* gabor :=
    GaborFilterSki.new gabor_kernel base_attrs base_ns
      GaborFilterSki.default_freq_t 2 [1%Z] in
  let* raw := getattr ski_mro gabor "raw_convolve" in
  let* _ := setattr gabor "filter" raw in
  let lbp_stage := SpatialHistogram.MultiScaleSpatialHistogram lbp ExtendedLBP in
  ret {| _model :=
           ChainOperator (ski_operator gabor)
                         (histogram_operator lbp_stage) |}.

Definition LGBPHS_compute (self : LGBPHS) (X : list matrix) (y : list Z)
  : M (list ndarray) :=
  op_compute (_model self) X y.

Definition LGBPHS_extract (self : LGBPHS) (X : matrix) : M ndarray :=
  op_extract (_model self) X.

(** ** Fisherfaces *)

(** Modelled from the spec: [Fisherfaces] of [facerec_py.facerec.feature],
    which is not among the sources. The specification gives it two
    states, "unfitted (constructed, no compute yet) and fitted (after
    compute has run, holding learned projection parameters)", a [compute]
    that fits on a labelled batch and an [extract] that projects a single
    sample and is "not guarded" against the unfitted state. The object
    holds the learned parameters under the key [_projection] (a name of
    this model), and is unfitted as long as it holds none; in that state
    [extract] does what [unfitted_extract] says. *)
Definition Fisherfaces_new (num_components : Z) : M loc :=
  alloc (<["_num_components" := VInt num_components]> ∅).

(** The learned parameters of the object, if it holds any. *)
Definition learned (self : loc) : M (option matrix) :=
  fun h =>
    match h !! self with
    | Some d =>
        match d !! "_projection" with
        | Some (VArray W) => (Ok (Some W), h)
        | _ => (Ok None, h)
        end
    | None => (Ok None, h)
    end.

Definition Fisherfaces_compute (self : loc) (X : list ndarray) (y : list Z)
  : M (list ndarray) :=
  let* n := get_int [] self "_num_components" in
  let* W := lift (fisher_fit n X y) in
  let* _ := setattr self "_projection" (VArray W) in
  mapM (fun x => lift (fisher_project W x)) X.

Definition Fisherfaces_extract (self : loc) (x : ndarray) : M ndarray :=
  let* fitted := learned self in
  match fitted with
  | Some W => lift (fisher_project W x)
  | None => lift (unfitted_extract x)
  end.

Definition fisher_operator (self : loc) : operator ndarray ndarray :=
  {| op_compute := Fisherfaces_compute self;
     op_extract := Fisherfaces_extract self |}.

(** ** [GaborFilterFisher] *)

Definition GaborFilterFisher_init (self : loc) : M unit :=
  let* _ := AbstractFeature.__init__ base_attrs self in
  let* gabor :=
    GaborFilterSki.new gabor_kernel base_attrs base_ns
      GaborFilterSki.default_freq_t 2 [1%Z] in
  let* _ := setattr self "_gabor" (VRef gabor) in
  let* g := get_ref [base_ns] self "_gabor" in
  let* col := getattr ski_mro g "convolve_to_col" in
  let* g' := get_ref [base_ns] self "_gabor" in
  let* _ := setattr g' "filter" col in
  let* fisher := Fisherfaces_new 14 in
  setattr self "_fisher" (VRef fisher).

Definition GaborFilterFisher_new : M loc :=
  let* self := alloc ∅ in
  let* _ := GaborFilterFisher_init self in
  ret self.

(** Each call builds a chain of its own from the two attributes. *)
Definition GaborFilterFisher_compute (self : loc) (X : list matrix)
    (y : list Z) : M (list ndarray) :=
  let* gabor := get_ref [base_ns] self "_gabor" in
  let* fisher := get_ref [base_ns] self "_fisher" in
  let model := ChainOperator (ski_operator gabor) (fisher_operator fisher) in
  op_compute model X y.

Definition GaborFilterFisher_extract (self : loc) (X : matrix) : M ndarray :=
  let* gabor := get_ref [base_ns] self "_gabor" in
  let* fisher := get_ref [base_ns] self "_fisher" in
  let model := ChainOperator (ski_operator gabor) (fisher_operator fisher) in
  op_extract model X.

(** A client's sequence of [extract] calls: the outcome of each, and the
    heap at the end. *)
Fixpoint run_extracts (self : loc) (xs : list matrix) (h : heap)
  : list (result ndarray) * heap :=
  match xs with
  | [] => ([], h)
  | x :: xs' =>
      let '(r, h1) := GaborFilterFisher_extract self x h in
      let '(rs, h2) := run_extracts self xs' h1 in
      (r :: rs, h2)
  end.

(** ** Labels *)

Lemma class_ns_raw_convolve :
  GaborFilterSki.class_ns !! "raw_convolve" = Some (VBound RawConvolve).
Proof.
  unfold GaborFilterSki.class_ns.
  rewrite !lookup_insert_ne by done. apply lookup_insert_eq.
Qed.

Lemma class_ns_convolve_to_col :
  GaborFilterSki.class_ns !! "convolve_to_col" = Some (VBound ConvolveToCol).
Proof.
  unfold GaborFilterSki.class_ns.
  rewrite lookup_insert_ne by done. apply lookup_insert_eq.
Qed.

(** The constructor of [LGBPHS] returns, and its model is the chain of
    the Gabor bank it created and the multi-scale histogram. *)
Lemma LGBPHS_new_model h :
  exists gabor h',
    LGBPHS_new h
    = (Ok {| _model :=
               ChainOperator (ski_operator gabor)
                 (histogram_operator
                    (SpatialHistogram.MultiScaleSpatialHistogram
                       lbp ExtendedLBP)) |}, h').
Proof.
  unfold LGBPHS_new. unfold bind at 1. rewrite GaborFilterSki.new_spec.
  unfold bind at 1. unfold getattr. rewrite lookup_insert_eq.
  destruct (lookup_ns _ "raw_convolve") as [raw |] eqn:E.
  - unfold bind at 1. rewrite GaborFilterSki.setattr_at.
    eexists _, _. reflexivity.
  - exfalso. simpl in E.
    destruct (_ !! "raw_convolve") in E; [discriminate |].
    rewrite class_ns_raw_convolve in E. discriminate.
Qed.

(** C8. The labels do not reach the result of [compute]: for
    [GaborFilterSki], for [GaborFilterCv2], and for every [LGBPHS] that
    the constructor returns. *)
Theorem labels_are_ignored :
  (forall self X y1 y2,
     GaborFilterSki.compute nd_convolve asColumnMatrix base_ns self X y1
     = GaborFilterSki.compute nd_convolve asColumnMatrix base_ns self X y2) /\
  (forall self X y1 y2,
     GaborFilterCv2.compute filter2D imagesAsColumnMatrix base_ns self X y1
     = GaborFilterCv2.compute filter2D imagesAsColumnMatrix base_ns self X y2) /\
  (forall h, exists lgbphs h',
     LGBPHS_new h = (Ok lgbphs, h') /\
     forall X y1 y2,
       LGBPHS_compute lgbphs X y1 = LGBPHS_compute lgbphs X y2).
Proof.
  split; [| split].
  - intros self X y1 y2. unfold GaborFilterSki.compute. reflexivity.
  - intros self X y1 y2. unfold GaborFilterCv2.compute. reflexivity.
  - intros h. destruct (LGBPHS_new_model h) as (gabor & h' & Hnew).
    eexists _, h'. split; [exact Hnew |].
    intros X y1 y2. unfold LGBPHS_compute. simpl.
    unfold GaborFilterSki.compute, SpatialHistogram.compute. reflexivity.
Qed.

(** ** The fitted state *)

Lemma get_ref_instance mro h self d name l :
  h !! self = Some d -> d !! name = Some (VRef l) ->
  get_ref mro self name h = (Ok l, h).
Proof.
  intros Hd Hk. unfold get_ref, bind.
  rewrite (getattr_instance _ _ _ _ _ _ Hd Hk). reflexivity.
Qed.

Lemma read_only_project_all W (X : list ndarray) :
  read_only (mapM (fun x => lift (fisher_project W x)) X).
Proof. apply read_only_mapM. intros x. apply read_only_lift. Qed.


Lemma learned_fitted h self d W :
  h !! self = Some d -> d !! "_projection" = Some (VArray W) ->
  learned self h = (Ok (Some W), h).
Proof. intros Hd HW. unfold learned. rewrite Hd, HW. reflexivity. Qed.





(** What [extract] does on an instance whose two attributes are set: the
    Gabor stage, then the Fisherfaces stage on its output. *)
Lemma GaborFilterFisher_extract_spec h self ds gabor fisher x :
  h !! self = Some ds ->
  ds !! "_gabor" = Some (VRef gabor) ->
  ds !! "_fisher" = Some (VRef fisher) ->
  GaborFilterFisher_extract self x h
  = match GaborFilterSki.extract nd_convolve base_ns gabor x h with
    | (Ok a, _) => Fisherfaces_extract fisher a h
    | (Raise e, _) => (Raise e, h)
    end.
Proof.
  intros Hs Hg Hf. unfold GaborFilterFisher_extract.
  unfold bind at 1. rewrite (get_ref_instance _ _ _ _ _ _ Hs Hg).
  unfold bind at 1. rewrite (get_ref_instance _ _ _ _ _ _ Hs Hf).
  simpl. unfold bind at 1.
  pose proof (GaborFilterSki.read_only_extract nd_convolve base_ns gabor x h)
    as Hro.
  destruct (GaborFilterSki.extract nd_convolve base_ns gabor x h)
    as [[a | e] h1]; simpl in Hro; subst h1; reflexivity.
Qed.

Lemma fresh_neq (h : heap) (l : loc) (d : object) :
  h !! l = Some d -> fresh (dom h) <> l.
Proof.
  intros Hl E. apply (is_fresh (dom h)). rewrite E.
  apply elem_of_dom. eauto.
Qed.



(** C9. Once [compute] has returned, the Fisherfaces object that the
    attribute [_fisher] refers to holds the projection fitted on the Gabor
    features of the batch, and every later [extract] on the instance,
    though it builds a chain of its own, projects with that projection
    and leaves the heap as it is. *)
Theorem projection_retained h self ds df gabor fisher n X y feats h' :
  h !! self = Some ds ->
  ds !! "_gabor" = Some (VRef gabor) ->
  ds !! "_fisher" = Some (VRef fisher) ->
  h !! fisher = Some df ->
  df !! "_num_components" = Some (VInt n) ->
  fisher <> self ->
  GaborFilterFisher_compute self X y h = (Ok feats, h') ->
  exists X1 W,
    GaborFilterSki.compute nd_convolve asColumnMatrix base_ns gabor X y h
    = (Ok X1, h) /\
    fisher_fit n X1 y = Ok W /\
    h' = <[fisher := <["_projection" := VArray W]> df]> h /\
    (forall x,
       GaborFilterFisher_extract self x h'
       = (and_then
            (fst (GaborFilterSki.extract nd_convolve base_ns gabor x h'))
            (fisher_project W), h')) /\
    (forall xs,
       run_extracts self xs h'
       = (map (fun x =>
                 and_then
                   (fst (GaborFilterSki.extract nd_convolve base_ns
                           gabor x h'))
                   (fisher_project W)) xs, h')).
Proof.
  intros Hs Hg Hf Hdf Hn Hne Hcompute.
  unfold GaborFilterFisher_compute in Hcompute.
  unfold bind at 1 in Hcompute.
  rewrite (get_ref_instance _ _ _ _ _ _ Hs Hg) in Hcompute.
  unfold bind at 1 in Hcompute.
  rewrite (get_ref_instance _ _ _ _ _ _ Hs Hf) in Hcompute.
  simpl in Hcompute. unfold bind at 1 in Hcompute.
  pose proof (GaborFilterSki.read_only_compute nd_convolve asColumnMatrix
                base_ns gabor X y h) as Hro.
  destruct (GaborFilterSki.compute nd_convolve asColumnMatrix base_ns
              gabor X y h) as [[X1 | e] h1] eqn:Hski;
    simpl in Hro; subst h1; [| discriminate].
  unfold Fisherfaces_compute in Hcompute.
  unfold bind at 1 in Hcompute.
  rewrite (get_int_instance _ _ _ _ _ _ Hdf Hn) in Hcompute.
  unfold bind at 1 in Hcompute. unfold lift at 1 in Hcompute.
  destruct (fisher_fit n X1 y) as [W | e] eqn:Hfit; [| discriminate].
  unfold bind at 1 in Hcompute. unfold setattr at 1 in Hcompute.
  rewrite Hdf in Hcompute.
  set (hw := <[fisher := <["_projection" := VArray W]> df]> h) in *.
  pose proof (read_only_project_all W X1 hw) as Hro.
  destruct (mapM (fun x => lift (fisher_project W x)) X1 hw)
    as [r hm] eqn:Hmap. simpl in Hro. subst hm.
  injection Hcompute as _ Hh'. subst h'.
  assert (Hs' : hw !! self = Some ds).
  { unfold hw. rewrite lookup_insert_ne by exact Hne. exact Hs. }
  assert (Hext : forall x,
            GaborFilterFisher_extract self x hw
            = (and_then
                 (fst (GaborFilterSki.extract nd_convolve base_ns gabor x hw))
                 (fisher_project W), hw)).
  { intros x.
    rewrite (GaborFilterFisher_extract_spec hw self ds gabor fisher x Hs' Hg Hf).
    pose proof (GaborFilterSki.read_only_extract nd_convolve base_ns
                  gabor x hw) as Hro.
    destruct (GaborFilterSki.extract nd_convolve base_ns gabor x hw)
      as [[a | e] h1]; simpl in Hro; subst h1; simpl; [| reflexivity].
    unfold Fisherfaces_extract, bind.
    rewrite (learned_fitted hw fisher (<["_projection" := VArray W]> df) W);
      [reflexivity | apply lookup_insert_eq | apply lookup_insert_eq]. }
  exists X1, W. split; [reflexivity |]. split; [exact Hfit |].
  split; [reflexivity |]. split; [exact Hext |].
  intros xs. induction xs as [| x xs IH]; simpl; [reflexivity |].
  rewrite Hext, IH. reflexivity.
Qed.



(** The two stages as stateless operators. *)
Lemma ski_operator_stateless (self : loc) : is_stateless (ski_operator self).
Proof.
  split; [intros X0 y; apply GaborFilterSki.read_only_compute |].
  intros x. apply GaborFilterSki.read_only_extract.
Qed.

Lemma histogram_operator_stateless (self : SpatialHistogram.instance lbp) :
  is_stateless (histogram_operator self).
Proof. apply stateless_is_stateless. Qed.


End Pipelines.

(** ** The statements on a concrete instance *)

Definition fisher_new : M loc :=
  GaborFilterFisher_new Standin.gabor_kernel ∅ ∅.

(** A Fisherfaces stage that reports an explicit error as long as nothing
    was fitted: the case most favourable to C4. *)
Definition reports_not_fitted (x : ndarray) : result ndarray :=
  Raise NotFittedError.

Definition fisher_compute : loc -> list matrix -> list Z -> M (list ndarray) :=
  GaborFilterFisher_compute Standin.nd_convolve Standin.asColumnMatrix ∅
    Standin.fisher_fit Standin.fisher_project reports_not_fitted.

Definition fisher_extract : loc -> matrix -> M ndarray :=
  GaborFilterFisher_extract Standin.nd_convolve Standin.asColumnMatrix ∅
    Standin.fisher_fit Standin.fisher_project reports_not_fitted.


(** The instance of the example, the heap it lives in, and the objects
    its attributes refer to. *)
Definition example_self : loc :=
  match fst (fisher_new ∅) with Ok self => self | Raise _ => 1%positive end.
Definition example_heap : heap := snd (fisher_new ∅).
Definition example_dict : object := default ∅ (example_heap !! example_self).
Definition example_gabor : loc :=
  match example_dict !! "_gabor" with Some (VRef l) => l | _ => 1%positive end.
Definition example_fisher : loc :=
  match example_dict !! "_fisher" with Some (VRef l) => l | _ => 1%positive end.
Definition example_fisher_dict : object :=
  default ∅ (example_heap !! example_fisher).
Definition example_fit : result (list ndarray) * heap :=
  fisher_compute example_self [[[Fin 1]]] [0%Z] example_heap.


Lemma example_fit_returns :
  example_fit
  = (Ok (match fst example_fit with Ok f => f | Raise _ => [] end),
     snd example_fit).
Proof. vm_compute. reflexivity. Qed.

Lemma projection_retained_witness :
  exists feats X1 W,
    example_fit = (Ok feats, snd example_fit) /\
    Standin.fisher_fit 14 X1 [0%Z] = Ok W /\
    fisher_extract example_self [[Fin 2]] (snd example_fit)
    = (Ok (Arr2 W), snd example_fit).
Proof.
  destruct (projection_retained Standin.nd_convolve Standin.asColumnMatrix ∅
              Standin.fisher_fit Standin.fisher_project reports_not_fitted
              example_heap example_self example_dict example_fisher_dict
              example_gabor example_fisher 14 [[[Fin 1]]] [0%Z]
              (match fst example_fit with Ok f => f | Raise _ => [] end)
              (snd example_fit))
    as (X1 & W & _ & Hfit & _ & Hext & _).
  - vm_compute. reflexivity.
  - vm_compute. reflexivity.
  - vm_compute. reflexivity.
  - vm_compute. reflexivity.
  - vm_compute. reflexivity.
  - vm_compute. discriminate.
  - exact example_fit_returns.
  - eexists _, X1, W. split; [exact example_fit_returns |].
    split; [exact Hfit |].
    unfold fisher_extract. rewrite (Hext [[Fin 2]]).
    f_equal.
Defined.

End Pipelines.

(* ================================================================= *)
(** * More on [GaborFilterSki]: the order of the bank, the other two
      modes, failures and batches *)

Module GaborFilterSkiFacts.

Import GaborFilterSki.
Local Open Scope py_scope.

Lemma flat_map_lookup_const {A B} (g : A -> list B) (c : nat) (l : list A)
    (i j : nat) (a : A) (b : B) :
  (forall a, length (g a) = c) ->
  l !! i = Some a -> g a !! j = Some b ->
  flat_map g l !! (i * c + j)%nat = Some b.
Proof.
  intros Hc. revert i. induction l as [| a0 l IH]; intros i Hi Hj.
  - discriminate.
  - destruct i as [| i]; simpl in *.
    + injection Hi as ->. apply lookup_app_l_Some. exact Hj.
    + rewrite lookup_app_r by (rewrite Hc; lia).
      rewrite Hc. replace (c + i * c + j - c)%nat with (i * c + j)%nat by lia.
      apply IH; assumption.
Qed.

Lemma map_lookup_Some {A B} (f : A -> B) (l : list A) (k : nat) (a : A) :
  l !! k = Some a -> map f l !! k = Some (f a).
Proof.
  revert k. induction l as [| a0 l IH]; intros [| k] H; simpl in *;
    try discriminate.
  - now injection H as ->.
  - apply IH, H.
Qed.

Lemma py_range_lookup (n : Z) (t : nat) :
  (t < Z.to_nat n)%nat -> py_range n !! t = Some (Z.of_nat t).
Proof.
  intros Ht. unfold py_range. rewrite list_lookup_fmap.
  rewrite lookup_seq_lt by exact Ht. reflexivity.
Qed.

Lemma flat_map_all_nil {A B} (g : A -> list B) (l : list A) :
  (forall a, g a = []) -> flat_map g l = [].
Proof.
  intros Hg. induction l as [| a l IH]; simpl; [reflexivity |].
  now rewrite Hg, IH.
Qed.

Lemma py_range_nonpositive (n : Z) : (n <= 0)%Z -> py_range n = [].
Proof.
  intros Hn. unfold py_range. replace (Z.to_nat n) with 0%nat by lia.
  reflexivity.
Qed.

Section Facts.

Variable gabor_kernel : float -> float -> Z -> Z -> list (list (fval * fval)).
Variable nd_convolve : matrix -> matrix -> boundary -> fval -> result matrix.
Variable asColumnMatrix : list matrix -> result matrix.
Variable base_attrs : object.
Variable base_ns : object.

Abbreviation ski_new := (new gabor_kernel base_attrs base_ns).
Abbreviation ski_filter := (filter nd_convolve base_ns).
Abbreviation ski_raw := (raw_convolve nd_convolve base_ns).
Abbreviation ski_col := (convolve_to_col nd_convolve base_ns).
Abbreviation ski_compute := (compute nd_convolve asColumnMatrix base_ns).
Abbreviation ski_extract := (extract nd_convolve base_ns).
Abbreviation ski_kernels self := (get_arrays (mro base_ns) self "_kernels").

(** The kernels are stored orientation by orientation, within an
    orientation scale by scale, within a scale frequency by frequency:
    the kernel for orientation [t], the [s]-th scale and the [q]-th
    frequency sits at index [(t * len(sigma_tuple) + s) * len(freq_t) + q],
    and it is the real part of what [gabor_kernel] returns for them. *)
Theorem kernel_order h freq_t theta_r sigma_tuple t s q sigma frequency :
  (t < Z.to_nat theta_r)%nat ->
  sigma_tuple !! s = Some sigma ->
  freq_t !! q = Some frequency ->
  exists self h' ks,
    ski_new freq_t theta_r sigma_tuple h = (Ok self, h') /\
    ski_kernels self h' = (Ok ks, h') /\
    ks !! ((t * length sigma_tuple + s) * length freq_t + q)%nat
    = Some (np_real (gabor_kernel frequency
                       (angle (Z.of_nat t) theta_r) sigma sigma)).
Proof.
  intros Ht Hs Hq. eexists _, _, _. split; [apply new_spec |].
  split; [eapply get_arrays_instance; apply lookup_insert_eq |].
  unfold kernel_grid.
  replace ((t * length sigma_tuple + s) * length freq_t + q)%nat
    with (t * (length sigma_tuple * length freq_t)
          + (s * length freq_t + q))%nat by lia.
  apply flat_map_lookup_const with (a := Z.of_nat t).
  - intros theta. apply flat_map_length_const. intros sg. apply length_map.
  - apply py_range_lookup, Ht.
  - apply flat_map_lookup_const with (a := sigma).
    + intros sg. apply length_map.
    + exact Hs.
    + exact (map_lookup_Some _ freq_t q frequency Hq).
Qed.

(** ** A bank without kernels *)

Lemma kernel_grid_empty freq_t theta_r sigma_tuple :
  (theta_r <= 0)%Z \/ sigma_tuple = [] \/ freq_t = [] ->
  kernel_grid gabor_kernel freq_t theta_r sigma_tuple = [].
Proof.
  intros [Ht | [-> | ->]]; unfold kernel_grid.
  - rewrite py_range_nonpositive by exact Ht. reflexivity.
  - apply flat_map_all_nil. intros theta. reflexivity.
  - apply flat_map_all_nil. intros theta.
    apply flat_map_all_nil. intros sigma. reflexivity.
Qed.

(** With no orientation ([theta_r <= 0]), no scale or no frequency the
    constructor still returns; the bank is empty, and every mode returns
    an empty array without a single convolution. *)
Theorem empty_bank h freq_t theta_r sigma_tuple :
  (theta_r <= 0)%Z \/ sigma_tuple = [] \/ freq_t = [] ->
  exists self h',
    new gabor_kernel base_attrs base_ns freq_t theta_r sigma_tuple h
    = (Ok self, h') /\
    get_arrays (mro base_ns) self "_kernels" h' = (Ok [], h') /\
    forall x,
      filter nd_convolve base_ns self x h' = (Ok [], h') /\
      raw_convolve nd_convolve base_ns self x h' = (Ok [], h') /\
      convolve_to_col nd_convolve base_ns self x h' = (Ok [], h').
Proof.
  intros Hempty. eexists _, _. split; [apply new_spec |].
  rewrite (kernel_grid_empty _ _ _ Hempty).
  set (h' := <[_ := _]> h).
  assert (Hk : ski_kernels (fresh (dom h)) h' = (Ok [], h'))
    by (eapply get_arrays_instance; apply lookup_insert_eq).
  split; [exact Hk |]. intros x. split; [| split].
  - eapply (filter_spec nd_convolve base_ns h' _ _ [] x []);
      [apply lookup_insert_eq | apply lookup_insert_eq | constructor].
  - unfold raw_convolve. unfold bind at 1. rewrite Hk.
    unfold bind at 1. rewrite Hk. reflexivity.
  - unfold convolve_to_col. unfold bind at 1. rewrite Hk.
    unfold bind at 1. rewrite Hk. reflexivity.
Qed.

(** ** The first failing convolution *)

Lemma stat_loop_failure x h (ks1 : list matrix) (k : matrix)
    (ks2 rs1 : list matrix) (e : exn) :
  responses_of nd_convolve Wrap x ks1 rs1 ->
  nd_convolve x k Wrap fzero = Raise e ->
  forall (i : nat) (feats : matrix),
    foldM (stat_step nd_convolve x) (enumerate_from i (ks1 ++ k :: ks2))
          feats h
    = (Raise e, h).
Proof.
  intros Hrs Hk. induction Hrs as [| k1 r1 ks1 rs1 H1 _ IH]; intros i feats.
  - simpl. unfold bind at 1. unfold stat_step at 1.
    unfold bind at 1. unfold lift at 1. rewrite Hk. reflexivity.
  - simpl. unfold bind at 1. unfold stat_step at 1.
    unfold bind at 1. unfold lift at 1. rewrite H1. unfold ret at 1.
    apply IH.
Qed.

(** [filter] translates no error: when the convolutions with the first
    kernels succeed and the next one raises, [filter] raises that very
    exception, whatever the remaining kernels would do, and the instance
    is as before. *)
Theorem filter_first_failure h self d ks1 k ks2 x rs1 e :
  h !! self = Some d ->
  d !! "_kernels" = Some (VArrays (ks1 ++ k :: ks2)) ->
  responses_of nd_convolve Wrap x ks1 rs1 ->
  nd_convolve x k Wrap fzero = Raise e ->
  ski_filter self x h = (Raise e, h).
Proof.
  intros Hd Hks Hrs Hk. unfold filter.
  pose proof (get_arrays_instance (mro base_ns) h self d "_kernels" _ Hd Hks)
    as Hget.
  unfold bind at 1. rewrite Hget.
  unfold bind at 1. rewrite Hget.
  unfold bind at 1. unfold enumerate.
  rewrite (stat_loop_failure x h ks1 k ks2 rs1 e Hrs Hk). reflexivity.
Qed.

(** ** The raw mode and the column mode *)

(** [(x.shape[0], x.shape[1])], as the lengths of the rows of an array of
    that shape. *)
Definition shape_of (x : matrix) : list nat :=
  repeat (length (hd [] x)) (length x).

(** The responses have the shape of [x], as [nd.convolve] returns them. *)
Definition shaped_like (x : matrix) (rs : list matrix) : Prop :=
  Forall (fun r => map length r = shape_of x) rs.

(** The responses have as many entries as [x]. *)
Definition sized_like (x : matrix) (rs : list matrix) : Prop :=
  Forall (fun r => length (flat r) = length (flat x)) rs.

(** The slices and the rows as the arrays of [np.float32] hold them. *)
Definition stored_slices (rs : list matrix) : tensor :=
  map (map (map float32)) rs.

Definition stored_rows (rs : list matrix) : matrix :=
  map (fun r => map float32 (flat r)) rs.

Lemma store_slice_ok (rows cols : nat) (value : matrix) :
  map length value = repeat cols rows ->
  store_slice rows cols value = Ok (map (map float32) value).
Proof.
  intros H. unfold store_slice. rewrite bool_decide_eq_true_2 by exact H.
  reflexivity.
Qed.

Lemma store_row_ok (size : nat) (value : vector) :
  length value = size -> store_row size value = Ok (map float32 value).
Proof.
  intros H. unfold store_row. rewrite bool_decide_eq_true_2 by exact H.
  reflexivity.
Qed.

Lemma shaped_sized (x : matrix) (rs : list matrix) :
  map length x = shape_of x -> shaped_like x rs -> sized_like x rs.
Proof.
  intros Hx Hrs. unfold shaped_like, sized_like in *.
  induction Hrs as [| r rs Hr _ IH]; constructor; [| exact IH].
  unfold flat. rewrite !length_concat, Hr, Hx. reflexivity.
Qed.

Lemma raw_loop x h (ks rs : list matrix) :
  responses_of nd_convolve Reflect x ks rs ->
  shaped_like x rs ->
  forall (done pad : tensor),
    length pad = length ks ->
    foldM (raw_step nd_convolve x) (enumerate_from (length done) ks)
          (done ++ pad) h
    = (Ok (done ++ stored_slices rs), h).
Proof.
  intros Hrs. induction Hrs as [| k r ks rs Hk _ IH];
    intros Hshape done pad Hpad.
  - destruct pad; [reflexivity | discriminate].
  - destruct pad as [| p pad]; [discriminate |].
    inversion Hshape as [| r' rs' Hr Hshape']; subst r' rs'.
    simpl. unfold bind at 1. unfold raw_step at 1.
    unfold bind at 1. unfold lift at 1. rewrite Hk.
    unfold bind at 1. unfold lift at 1.
    rewrite (store_slice_ok _ _ r Hr). unfold ret at 1.
    match goal with
    | |- foldM _ _ ?S _ = _ =>
        replace S with (done ++ map (map float32) r :: pad)
          by (symmetry; apply GaborFilterCv2.insert_at_length)
    end.
    specialize (IH Hshape' (done ++ [map (map float32) r]) pad).
    rewrite length_app, Nat.add_1_r, <- !app_assoc in IH.
    apply IH. simpl in Hpad. lia.
Qed.

Lemma col_loop x h (ks rs : list matrix) :
  responses_of nd_convolve Reflect x ks rs ->
  sized_like x rs ->
  forall (done pad : matrix),
    length pad = length ks ->
    foldM (col_step nd_convolve x) (enumerate_from (length done) ks)
          (done ++ pad) h
    = (Ok (done ++ stored_rows rs), h).
Proof.
  intros Hrs. induction Hrs as [| k r ks rs Hk _ IH];
    intros Hsize done pad Hpad.
  - destruct pad; [reflexivity | discriminate].
  - destruct pad as [| p pad]; [discriminate |].
    inversion Hsize as [| r' rs' Hr Hsize']; subst r' rs'.
    simpl. unfold bind at 1. unfold col_step at 1.
    unfold bind at 1. unfold lift at 1. rewrite Hk.
    unfold bind at 1. unfold lift at 1.
    rewrite (store_row_ok _ (flat r) Hr). unfold ret at 1.
    match goal with
    | |- foldM _ _ ?S _ = _ =>
        replace S with (done ++ map float32 (flat r) :: pad)
          by (symmetry; apply GaborFilterCv2.insert_at_length)
    end.
    specialize (IH Hsize' (done ++ [map float32 (flat r)]) pad).
    rewrite length_app, Nat.add_1_r, <- !app_assoc in IH.
    apply IH. simpl in Hpad. lia.
Qed.

Lemma raw_convolve_spec h self d ks x rs :
  h !! self = Some d ->
  d !! "_kernels" = Some (VArrays ks) ->
  responses_of nd_convolve Reflect x ks rs ->
  shaped_like x rs ->
  ski_raw self x h = (Ok (stored_slices rs), h).
Proof.
  intros Hd Hks Hrs Hshape. unfold raw_convolve.
  pose proof (get_arrays_instance (mro base_ns) h self d "_kernels" _ Hd Hks)
    as Hget.
  unfold bind at 1. rewrite Hget. unfold bind at 1. rewrite Hget.
  unfold enumerate.
  exact (raw_loop x h ks rs Hrs Hshape [] _ (repeat_length _ _)).
Qed.

Lemma convolve_to_col_spec h self d ks x rs :
  h !! self = Some d ->
  d !! "_kernels" = Some (VArrays ks) ->
  responses_of nd_convolve Reflect x ks rs ->
  sized_like x rs ->
  ski_col self x h = (Ok (stored_rows rs), h).
Proof.
  intros Hd Hks Hrs Hsize. unfold convolve_to_col.
  pose proof (get_arrays_instance (mro base_ns) h self d "_kernels" _ Hd Hks)
    as Hget.
  unfold bind at 1. rewrite Hget. unfold bind at 1. rewrite Hget.
  unfold enumerate.
  exact (col_loop x h ks rs Hrs Hsize [] _ (repeat_length _ _)).
Qed.

Lemma stored_rows_lookup (rs : list matrix) (k : nat) (slice : matrix) :
  stored_slices rs !! k = Some slice ->
  stored_rows rs !! k = Some (flat slice).
Proof.
  unfold stored_slices, stored_rows. revert k.
  induction rs as [| r rs IH]; intros [| k] H; simpl in *;
    try discriminate.
  - injection H as <-. unfold flat. now rewrite concat_map.
  - apply IH, H.
Qed.

(** For a rectangular image [x] and convolutions in the mode [reflect]
    that return responses of the shape of [x], [raw_convolve] returns the
    responses in the order of the kernels, rounded to [np.float32] by the
    store, and [convolve_to_col] returns the same rounded responses, each
    flattened into a row: row [k] of the one is slice [k] of the other
    read row by row. *)
Theorem raw_and_column_modes h self d ks x rs :
  h !! self = Some d ->
  d !! "_kernels" = Some (VArrays ks) ->
  responses_of nd_convolve Reflect x ks rs ->
  map length x = shape_of x ->
  shaped_like x rs ->
  ski_raw self x h = (Ok (stored_slices rs), h) /\
  ski_col self x h = (Ok (stored_rows rs), h) /\
  length (stored_slices rs) = length ks /\
  length (stored_rows rs) = length ks /\
  forall k slice,
    stored_slices rs !! k = Some slice ->
    stored_rows rs !! k = Some (flat slice).
Proof.
  intros Hd Hks Hrs Hx Hshape.
  split; [exact (raw_convolve_spec h self d ks x rs Hd Hks Hrs Hshape) |].
  split.
  { apply (convolve_to_col_spec h self d ks x rs Hd Hks Hrs).
    exact (shaped_sized x rs Hx Hshape). }
  unfold stored_slices, stored_rows at 1. rewrite !length_map.
  split; [symmetry; apply (Forall2_length _ _ _ Hrs) |].
  split; [symmetry; apply (Forall2_length _ _ _ Hrs) |].
  apply stored_rows_lookup.
Qed.

(** ** Batches *)

Lemma mapM_read_only {A B} (f : A -> M B) (l : list A) h :
  (forall a, read_only (f a)) ->
  mapM f l h = (collect (fun a => fst (f a h)) l, h).
Proof.
  intros Hf. induction l as [| a l IH]; simpl; [reflexivity |].
  unfold bind at 1. pose proof (Hf a h) as Ha.
  destruct (f a h) as [[b | e] h1]; simpl in Ha; subst h1; simpl;
    [| reflexivity].
  unfold bind at 1. rewrite IH.
  destruct (collect (fun a0 => fst (f a0 h)) l); reflexivity.
Qed.

(** [compute] on a batch is [extract] on each image, in order, in
    whatever mode the instance is: it returns the list of what [extract]
    returns, or raises what [extract] raises on the first image where it
    fails. The labels play no part and the instance is left as it was.
    When [asColumnMatrix] refuses the batch, [compute] raises before any
    filtering, although the column matrix is never used. *)
Theorem compute_is_extract_per_image h self X y :
  ski_compute self X y h
  = (match asColumnMatrix X with
     | Ok _ => collect (fun x => fst (ski_extract self x h)) X
     | Raise e => Raise e
     end, h).
Proof.
  unfold compute. unfold bind at 1, lift.
  destruct (asColumnMatrix X) as [XC | e]; [| reflexivity].
  apply (mapM_read_only (fun x => call_filter nd_convolve base_ns self x)).
  intros x. apply read_only_call_filter.
Qed.

End Facts.

(** ** On concrete banks *)

Lemma bank_size_fixed_witness :
  exists self h' ks,
    new Standin.gabor_kernel ∅ ∅ default_freq_t default_theta_r
        default_sigma_tuple ∅ = (Ok self, h') /\
    get_arrays (mro ∅) self "_kernels"
      (after_calls Standin.nd_convolve Standin.asColumnMatrix ∅ self
         [CallCompute [[[Fin 1]]] [3%Z]; CallFilter [[Fin 1]];
          CallExtract [[Fin 2]]] h')
    = (Ok ks, h') /\
    Z.of_nat (length ks) = (8 * 5 * 3)%Z.
Proof.
  apply (bank_size_fixed Standin.gabor_kernel Standin.nd_convolve
           Standin.asColumnMatrix ∅ ∅ ∅ default_freq_t default_theta_r
           default_sigma_tuple).
  unfold default_theta_r. lia.
Defined.

Lemma kernel_order_witness :
  exists self h' ks,
    new Standin.gabor_kernel ∅ ∅ default_freq_t default_theta_r
        default_sigma_tuple ∅ = (Ok self, h') /\
    get_arrays (mro ∅) self "_kernels" h' = (Ok ks, h') /\
    ks !! 22%nat
    = Some (np_real (Standin.gabor_kernel 0.15%float (angle 1 8) 4 4)).
Proof.
  apply (kernel_order Standin.gabor_kernel ∅ ∅ ∅ default_freq_t
           default_theta_r default_sigma_tuple 1 2 1 4%Z 0.15%float).
  - vm_compute. lia.
  - reflexivity.
  - reflexivity.
Defined.

Lemma empty_bank_witness :
  exists self h',
    new Standin.gabor_kernel ∅ ∅ default_freq_t 0 default_sigma_tuple ∅
    = (Ok self, h') /\
    get_arrays (mro ∅) self "_kernels" h' = (Ok [], h') /\
    forall x,
      filter Standin.nd_convolve ∅ self x h' = (Ok [], h') /\
      raw_convolve Standin.nd_convolve ∅ self x h' = (Ok [], h') /\
      convolve_to_col Standin.nd_convolve ∅ self x h' = (Ok [], h').
Proof.
  apply (empty_bank Standin.gabor_kernel Standin.nd_convolve ∅ ∅ ∅
           default_freq_t 0 default_sigma_tuple).
  left. lia.
Defined.

(** A generator whose kernel for the scale 2 is empty, a shape that the
    one-entry convolution refuses. *)
Definition gappy_kernel (frequency theta : float) (sigma_x sigma_y : Z)
  : list (list (fval * fval)) :=
  if (sigma_x =? 2)%Z then [] else [[(Fin (IZR sigma_x), fzero)]].

Lemma filter_first_failure_witness :
  exists self h,
    new gappy_kernel ∅ ∅ [0.05%float] 1 [1%Z; 2%Z; 3%Z] ∅ = (Ok self, h) /\
    filter Standin.nd_convolve ∅ self [[Fin 1]] h
    = (Raise (PrimitiveError "kernel shape"), h).
Proof.
  eexists _, _. split; [apply new_spec |].
  eapply (filter_first_failure Standin.nd_convolve ∅ _ _ _
            [[[Fin 1]]] [] [[[Fin 3]]] [[Fin 1]] [[[Fin (1 * 1)]]]).
  - apply lookup_insert_eq.
  - apply lookup_insert_eq.
  - repeat constructor.
  - reflexivity.
Defined.

Lemma raw_and_column_modes_witness :
  raw_convolve Standin.nd_convolve ∅ small_self [[Fin 1; Fin 5]]
    (small_heap [1%Z; 2%Z])
  = (Ok (stored_slices
           [[[Fin (1 * 1); Fin (1 * 5)]]; [[Fin (2 * 1); Fin (2 * 5)]]]),
     small_heap [1%Z; 2%Z]) /\
  convolve_to_col Standin.nd_convolve ∅ small_self [[Fin 1; Fin 5]]
    (small_heap [1%Z; 2%Z])
  = (Ok (stored_rows
           [[[Fin (1 * 1); Fin (1 * 5)]]; [[Fin (2 * 1); Fin (2 * 5)]]]),
     small_heap [1%Z; 2%Z]).
Proof.
  destruct (raw_and_column_modes Standin.nd_convolve ∅
              (small_heap [1%Z; 2%Z]) small_self (small_dict [1%Z; 2%Z])
              [[[Fin 1]]; [[Fin 2]]] [[Fin 1; Fin 5]]
              [[[Fin (1 * 1); Fin (1 * 5)]]; [[Fin (2 * 1); Fin (2 * 5)]]])
    as (Hraw & Hcol & _).
  - apply lookup_insert_eq.
  - apply lookup_insert_eq.
  - repeat constructor.
  - reflexivity.
  - repeat constructor.
  - split; [exact Hraw | exact Hcol].
Defined.

End GaborFilterSkiFacts.

(* ================================================================= *)
(** * More on [GaborFilterCv2]: the bank, the kernel sizes, the order of
      the slices *)

Module GaborFilterCv2Facts.

Import GaborFilterCv2.
Local Open Scope py_scope.

(** Whether [np.arange(0, np.pi, np.pi / n)] has exactly [n] elements. *)
Definition arange_exact (n : Z) : bool :=
  match arange_length 0 np_pi (np_pi / float_of_Z n)%float with
  | Some m => (m =? n)%Z
  | None => false
  end.

Lemma arange_exact_to_sixty :
  forallb arange_exact (map Z.of_nat (seq 1 60)) = true.
Proof. vm_compute. reflexivity. Qed.

Lemma arange_length_to_sixty (n : Z) :
  (1 <= n <= 60)%Z ->
  arange_length 0 np_pi (np_pi / float_of_Z n)%float = Some n.
Proof.
  intros Hn.
  assert (Hin : In n (map Z.of_nat (seq 1 60))).
  { apply in_map_iff. exists (Z.to_nat n). split; [lia |].
    apply in_seq. lia. }
  pose proof (proj1 (forallb_forall _ _) arange_exact_to_sixty n Hin) as He.
  unfold arange_exact in He.
  destruct (arange_length 0 np_pi (np_pi / float_of_Z n)%float) as [m |];
    [| discriminate].
  apply Z.eqb_eq in He. now subst m.
Qed.

(** Pointwise order of two images of one shape. *)
Definition image_le (a b : image) : Prop := Forall2 (Forall2 Z.le) a b.

Lemma image_le_refl (a : image) : image_le a a.
Proof.
  induction a as [| row a IH]; constructor; [| exact IH].
  induction row as [| p row IHr]; constructor; [lia | exact IHr].
Qed.

Lemma row_le_trans (a b c : list Z) :
  Forall2 Z.le a b -> Forall2 Z.le b c -> Forall2 Z.le a c.
Proof.
  intros Hab. revert c. induction Hab as [| p q a b Hpq _ IH]; intros c Hbc;
    inversion Hbc; subst; constructor; [lia | now apply IH].
Qed.

Lemma image_le_trans (a b c : image) :
  image_le a b -> image_le b c -> image_le a c.
Proof.
  intros Hab. revert c. induction Hab as [| ra rb a b Hr _ IH]; intros c Hbc;
    inversion Hbc; subst; constructor;
    [eapply row_le_trans; eassumption | now apply IH].
Qed.

Lemma row_max_ge (ra rb : list Z) :
  length ra = length rb ->
  Forall2 Z.le ra (zip_with Z.max ra rb) /\
  Forall2 Z.le rb (zip_with Z.max ra rb).
Proof.
  revert rb. induction ra as [| p ra IH]; intros [| q rb] H; simpl in *;
    try discriminate; [split; constructor |].
  destruct (IH rb) as [Hl Hr]; [lia |].
  split; constructor; try assumption; lia.
Qed.

Lemma maximum_ge (a b : image) :
  map length a = map length b ->
  image_le a (maximum a b) /\ image_le b (maximum a b).
Proof.
  revert b. induction a as [| ra a IH]; intros [| rb b] H; simpl in *;
    try discriminate; [split; constructor |].
  injection H as Hr Ht.
  destruct (IH b Ht) as [Hl Hr']. destruct (row_max_ge ra rb Hr) as [Hrl Hrr].
  split; constructor; assumption.
Qed.

Lemma running_max_ge (rs : list image) :
  forall (accum : image),
    Forall (fun r => map length r = map length accum) rs ->
    Forall (image_le accum) (running_max accum rs).
Proof.
  induction rs as [| r rs IH]; intros accum Hshape; simpl; [constructor |].
  inversion Hshape as [| ? ? Hr Hrest]; subst.
  destruct (maximum_ge accum r) as [Hacc _]; [now symmetry |].
  assert (Hs : map length (maximum accum r) = map length accum)
    by (apply shape_maximum; now symmetry).
  constructor; [exact Hacc |].
  specialize (IH (maximum accum r)).
  eapply Forall_impl; [apply IH |].
  - eapply Forall_impl; [exact Hrest |]. intros r' Hr'. simpl in Hr'.
    now rewrite Hs.
  - intros a Ha. simpl in Ha. eapply image_le_trans; eassumption.
Qed.

Lemma running_max_monotone (rs : list image) :
  forall (accum : image) (i j : nat) (a b : image),
    Forall (fun r => map length r = map length accum) rs ->
    (i <= j)%nat ->
    running_max accum rs !! i = Some a ->
    running_max accum rs !! j = Some b ->
    image_le a b.
Proof.
  induction rs as [| r rs IH]; intros accum i j a b Hshape Hij Hi Hj;
    simpl in *; [discriminate |].
  inversion Hshape as [| ? ? Hr Hrest]; subst.
  assert (Hs : map length (maximum accum r) = map length accum)
    by (apply shape_maximum; now symmetry).
  assert (Hrest' : Forall (fun r' => map length r' =
                                    map length (maximum accum r)) rs).
  { eapply Forall_impl; [exact Hrest |]. intros r' Hr'. simpl in Hr'.
    now rewrite Hs. }
  destruct i as [| i].
  - simpl in Hi. injection Hi as <-. destruct j as [| j].
    + simpl in Hj. injection Hj as <-. apply image_le_refl.
    + simpl in Hj.
      pose proof (running_max_ge rs (maximum accum r) Hrest') as Hge.
      rewrite Forall_forall in Hge. apply Hge.
      apply list_elem_of_lookup. exists j. exact Hj.
  - destruct j as [| j]; [lia |]. simpl in Hi, Hj.
    apply (IH (maximum accum r) i j a b Hrest'); [lia | exact Hi | exact Hj].
Qed.

Lemma running_max_ge_own (rs : list image) :
  forall (accum : image) (i : nat) (r a : image),
    Forall (fun r => map length r = map length accum) rs ->
    rs !! i = Some r ->
    running_max accum rs !! i = Some a ->
    image_le r a.
Proof.
  induction rs as [| r0 rs IH]; intros accum i r a Hshape Hr Ha;
    simpl in *; [discriminate |].
  inversion Hshape as [| ? ? Hr0 Hrest]; subst.
  assert (Hs : map length (maximum accum r0) = map length accum)
    by (apply shape_maximum; now symmetry).
  destruct i as [| i]; simpl in Hr, Ha.
  - injection Hr as <-. injection Ha as <-.
    apply (maximum_ge accum r0). now symmetry.
  - apply (IH (maximum accum r0) i r a); [| exact Hr | exact Ha].
    eapply Forall_impl; [exact Hrest |]. intros r' Hr'. simpl in Hr'.
    now rewrite Hs.
Qed.

Section Facts.

Variable getGaborKernel :
  Z * Z -> float -> float -> float -> float -> float -> matrix.
Variable filter2D : image -> matrix -> result image.
Variable asColumnMatrix : list image -> result matrix.
Variable base_attrs : object.
Variable base_ns : object.

Abbreviation cv_new := (new getGaborKernel base_attrs base_ns).
Abbreviation cv_build := (build_filters getGaborKernel base_ns).
Abbreviation cv_filter := (filter filter2D base_ns).
Abbreviation cv_compute := (compute filter2D asColumnMatrix base_ns).
Abbreviation cv_extract := (extract filter2D base_ns).
Abbreviation cv_kernels self := (get_arrays (mro base_ns) self "_kernels").

(** From one to sixty orientations [np.arange] enumerates exactly
    [orient_cnt] angles, and the bank holds [orient_cnt * scale_cnt]
    kernels. *)
Theorem bank_size_to_sixty h orient_cnt scale_cnt :
  (1 <= orient_cnt <= 60)%Z ->
  (0 <= scale_cnt)%Z ->
  exists self h' ks,
    new getGaborKernel base_attrs base_ns orient_cnt scale_cnt h
    = (Ok self, h') /\
    get_arrays (mro base_ns) self "_kernels" h' = (Ok ks, h') /\
    Z.of_nat (length ks) = (orient_cnt * scale_cnt)%Z.
Proof.
  intros Ho Hs.
  destruct (bank_size getGaborKernel base_attrs base_ns h
              orient_cnt scale_cnt orient_cnt)
    as (self & h' & ks & Hnew & Hks & Hlen).
  - lia.
  - exact Hs.
  - apply arange_length_to_sixty, Ho.
  - exists self, h', ks. split; [exact Hnew |]. split; [exact Hks |].
    rewrite Hlen. lia.
Qed.

(** With [orient_cnt = 0] the constructor raises [ZeroDivisionError] from
    [np.pi / self._orient_cnt]; the object it was building is left with
    its two counts and an empty bank. *)
Theorem no_orientation_raises h scale_cnt :
  cv_new 0 scale_cnt h
  = (Raise ZeroDivisionError,
     <[fresh (dom h) := instance_dict base_attrs ∅ 0 scale_cnt []]> h).
Proof.
  unfold new, bind at 1, alloc. unfold bind at 1. unfold __init__.
  unfold bind at 1. unfold AbstractFeature.__init__ at 1.
  rewrite lookup_insert_eq.
  unfold bind at 1. rewrite GaborFilterSki.setattr_at.
  unfold bind at 1. rewrite GaborFilterSki.setattr_at.
  unfold bind at 1. rewrite GaborFilterSki.setattr_at.
  unfold build_filters.
  unfold bind at 1. rewrite GaborFilterSki.setattr_at.
  unfold bind at 1.
  rewrite (get_int_instance (mro base_ns) _ _ _ "_orient_cnt" 0%Z
             (lookup_insert_eq _ _ _)).
  - unfold bind at 1. unfold lift at 1. simpl.
    rewrite !insert_insert_eq. reflexivity.
  - rewrite !lookup_insert_ne by done. apply lookup_insert_eq.
Qed.


(** ** Rebuilding the bank *)

Lemma build_filters_spec h self d orient_cnt scale_cnt thetas :
  d !! "_orient_cnt" = Some (VInt orient_cnt) ->
  d !! "_scale_cnt" = Some (VInt scale_cnt) ->
  orient_cnt <> 0%Z ->
  np_arange 0 np_pi (np_pi / float_of_Z orient_cnt)%float = Ok thetas ->
  cv_build self (<[self := d]> h)
  = (Ok tt,
     <[self := <["_kernels" :=
                   VArrays (kernel_bank getGaborKernel thetas scale_cnt)]> d]>
       h).
Proof.
  intros Ho Hs Hne Hth. unfold build_filters.
  unfold bind at 1. rewrite GaborFilterSki.setattr_at.
  unfold bind at 1.
  rewrite (get_int_instance (mro base_ns) _ self
             (<["_kernels" := VArrays []]> d) "_orient_cnt" orient_cnt).
  2:{ apply lookup_insert_eq. }
  2:{ rewrite lookup_insert_ne by done. exact Ho. }
  unfold bind at 1. unfold lift at 1. unfold py_div.
  destruct (Z.eqb_spec orient_cnt 0) as [E | _]; [contradiction |].
  unfold bind at 1. unfold lift at 1. rewrite Hth.
  rewrite (orientation_loop getGaborKernel base_ns h self d scale_cnt Hs
             thetas []).
  reflexivity.
Qed.

(** [build_filters] replaces the bank, it does not extend it: called
    again on an instance that the constructor returned, it leaves the
    instance exactly as it was. *)
Theorem rebuild_changes_nothing h orient_cnt scale_cnt n :
  orient_cnt <> 0%Z ->
  arange_length 0 np_pi (np_pi / float_of_Z orient_cnt)%float = Some n ->
  exists self h',
    cv_new orient_cnt scale_cnt h = (Ok self, h') /\
    cv_build self h' = (Ok tt, h').
Proof.
  intros Hne Hn.
  destruct (np_arange_ok _ _ Hn) as (thetas & Hth & _).
  eexists _, _. split; [apply (build_new_spec _ _ _ h _ _ thetas Hne Hth) |].
  rewrite (build_filters_spec h _ _ orient_cnt scale_cnt thetas).
  - unfold instance_dict. rewrite insert_insert_eq. reflexivity.
  - unfold instance_dict. rewrite !lookup_insert_ne by done.
    apply lookup_insert_eq.
  - unfold instance_dict. rewrite lookup_insert_ne by done.
    apply lookup_insert_eq.
  - exact Hne.
  - exact Hth.
Qed.

(** ** The order of the slices *)

(** When the filtering primitive returns an image of the shape of [x] for
    every kernel, no slice of [filter(x)] is below an earlier slice,
    below the response of its own kernel, or below zero, at any pixel. *)
Theorem slices_never_decrease h self d ks x rs :
  h !! self = Some d ->
  d !! "_kernels" = Some (VArrays ks) ->
  Forall2 (fun v r => filter2D x v = Ok r) ks rs ->
  Forall (fun r => map length r = map length x) rs ->
  exists feats,
    cv_filter self x h = (Ok feats, h) /\
    (forall i j a b, (i <= j)%nat ->
       feats !! i = Some a -> feats !! j = Some b -> image_le a b) /\
    (forall i r a,
       rs !! i = Some r -> feats !! i = Some a ->
       image_le r a /\ image_le (zeros_like x) a).
Proof.
  intros Hd Hk Hrs Hshape. exists (running_max (zeros_like x) rs).
  assert (Hshape' : Forall (fun r => map length r
                                     = map length (zeros_like x)) rs).
  { eapply Forall_impl; [exact Hshape |]. intros r Hr. simpl in Hr.
    now rewrite shape_zeros_like. }
  split; [exact (running_filter_spec filter2D base_ns h self d ks x rs
                   Hd Hk Hrs Hshape) |].
  split.
  - intros i j a b Hij Hi Hj.
    exact (running_max_monotone rs _ i j a b Hshape' Hij Hi Hj).
  - intros i r a Hr Ha. split.
    + exact (running_max_ge_own rs _ i r a Hshape' Hr Ha).
    + pose proof (running_max_ge rs _ Hshape') as Hge.
      rewrite Forall_forall in Hge. apply Hge.
      apply list_elem_of_lookup. exists i. exact Ha.
Qed.

(** ** Batches *)

(** [compute] on a batch is [filter] on each image, in order: it returns
    the list of what [extract] returns, or raises what it raises on the
    first image where it fails; it raises before any filtering when
    [asColumnMatrix] refuses the batch. The labels play no part and the
    instance is left as it was. *)
Theorem compute_is_filter_per_image h self X y :
  cv_compute self X y h
  = (match asColumnMatrix X with
     | Ok _ => collect (fun x => fst (cv_extract self x h)) X
     | Raise e => Raise e
     end, h).
Proof.
  unfold compute. unfold bind at 1, lift.
  destruct (asColumnMatrix X) as [XC | e]; [| reflexivity].
  apply (GaborFilterSkiFacts.mapM_read_only
           (fun x => filter filter2D base_ns self x)).
  intros x. apply read_only_cv_filter.
Qed.

End Facts.

(** ** On concrete banks *)

Lemma bank_size_to_sixty_witness :
  exists self h' ks,
    new Standin.getGaborKernel ∅ ∅ default_orient_cnt default_scale_cnt ∅
    = (Ok self, h') /\
    get_arrays (mro ∅) self "_kernels" h' = (Ok ks, h') /\
    Z.of_nat (length ks) = (8 * 5)%Z.
Proof.
  apply (bank_size_to_sixty Standin.getGaborKernel ∅ ∅ ∅
           default_orient_cnt default_scale_cnt);
    unfold default_orient_cnt, default_scale_cnt; lia.
Defined.


Lemma rebuild_changes_nothing_witness :
  exists self h',
    new Standin.getGaborKernel ∅ ∅ 61 1 ∅ = (Ok self, h') /\
    build_filters Standin.getGaborKernel ∅ self h' = (Ok tt, h').
Proof.
  apply (rebuild_changes_nothing Standin.getGaborKernel ∅ ∅ ∅ 61 1 62).
  - discriminate.
  - apply arange_sixty_one.
Defined.

Lemma slices_never_decrease_witness :
  exists self h feats,
    two_orientations ∅ = (Ok self, h) /\
    filter Standin.filter2D ∅ self [[5%Z]] h = (Ok feats, h) /\
    (forall i j a b, (i <= j)%nat ->
       feats !! i = Some a -> feats !! j = Some b -> image_le a b).
Proof.
  destruct (slices_never_decrease Standin.filter2D ∅
              (<[fresh (dom (∅ : heap)) :=
                   instance_dict ∅ ∅ 2 1 [first_kernel; second_kernel]]> ∅)
              (fresh (dom (∅ : heap)))
              (instance_dict ∅ ∅ 2 1 [first_kernel; second_kernel])
              [first_kernel; second_kernel] [[5%Z]] [[[5%Z]]; [[0%Z]]])
    as (feats & Hf & Hmono & _).
  - apply lookup_insert_eq.
  - apply lookup_insert_eq.
  - constructor; [apply first_response |].
    constructor; [apply second_response | constructor].
  - repeat constructor.
  - eexists _, _, feats. split; [apply two_orientations_spec |].
    split; [exact Hf | exact Hmono].
Defined.

End GaborFilterCv2Facts.

(* ================================================================= *)
(** * More on the pipelines: the modes their constructors select, and
      [LGBPHS2] *)

Module PipelineFacts.

Import Pipelines.
Local Open Scope py_scope.


Section Facts.

Variable gabor_kernel : float -> float -> Z -> Z -> list (list (fval * fval)).
Variable nd_convolve : matrix -> matrix -> boundary -> fval -> result matrix.
Variable asColumnMatrix : list matrix -> result matrix.
Variable base_attrs : object.
Variable base_ns : object.
Variable lbp : Type.
Variable ExtendedLBP : lbp.
Variable cell_histogram : lbp -> nat * nat -> matrix -> nat -> nat -> result vector.

Abbreviation ski_mro := (GaborFilterSki.mro base_ns).
Abbreviation ski_extract := (GaborFilterSki.extract nd_convolve base_ns).
Abbreviation multi_scale :=
  (SpatialHistogram.MultiScaleSpatialHistogram lbp ExtendedLBP).
Abbreviation concatenated :=
  (SpatialHistogram.ConcatenatedSpatialHistogram lbp ExtendedLBP).
Abbreviation cell_histograms :=
  (SpatialHistogram.cell_histograms lbp cell_histogram).

(** The bank of both pipelines: [GaborFilterSki(theta_r=2,
    sigma_tuple=(1,))]. *)
Definition pipeline_bank : list matrix :=
  GaborFilterSki.kernel_grid gabor_kernel GaborFilterSki.default_freq_t
    2 [1%Z].

Definition pipeline_dict : object :=
  GaborFilterSki.instance_dict base_attrs ∅ GaborFilterSki.default_freq_t
    2 [1%Z] pipeline_bank.

Lemma pipeline_bank_length : length pipeline_bank = 6%nat.
Proof.
  apply Nat2Z.inj. unfold pipeline_bank.
  rewrite GaborFilterSki.kernel_grid_length by lia. reflexivity.
Qed.

Lemma pipeline_dict_lookup_method (name : string) :
  name <> "_kernels" -> name <> "_sigma_t" -> name <> "_theta_r" ->
  name <> "_freq_t" ->
  base_attrs !! name = None ->
  pipeline_dict !! name = None.
Proof.
  intros H1 H2 H3 H4 Hb. unfold pipeline_dict, GaborFilterSki.instance_dict.
  rewrite !lookup_insert_ne by (intros E; symmetry in E; contradiction).
  rewrite lookup_union, Hb, lookup_empty. reflexivity.
Qed.

(** An instance whose attribute [filter] holds one of its own methods
    answers [extract] with that method. *)
Lemma extract_rebound h gabor d m x :
  h !! gabor = Some d ->
  d !! "filter" = Some (VBound m) ->
  ski_extract gabor x h = GaborFilterSki.invoke nd_convolve base_ns m gabor x h.
Proof.
  intros Hd Hm. unfold GaborFilterSki.extract, GaborFilterSki.call_filter.
  unfold bind at 1. rewrite (getattr_instance _ _ _ _ _ _ Hd Hm). reflexivity.
Qed.

(** ** [LGBPHS] *)

Lemma LGBPHS_new_raw h :
  base_attrs !! "raw_convolve" = None ->
  LGBPHS_new gabor_kernel nd_convolve asColumnMatrix base_attrs base_ns
             lbp ExtendedLBP cell_histogram h
  = (Ok {| _model :=
             ChainOperator
               (ski_operator nd_convolve asColumnMatrix base_ns
                             (fresh (dom h)))
               (histogram_operator lbp cell_histogram multi_scale) |},
     <[fresh (dom h) := <["filter" := VBound RawConvolve]> pipeline_dict]> h).
Proof.
  intros Hb. unfold LGBPHS_new. unfold bind at 1.
  rewrite GaborFilterSki.new_spec. fold pipeline_bank. fold pipeline_dict.
  unfold bind at 1. unfold getattr. rewrite lookup_insert_eq.
  simpl. rewrite pipeline_dict_lookup_method by (done || exact Hb).
  rewrite class_ns_raw_convolve.
  unfold bind at 1. rewrite GaborFilterSki.setattr_at. reflexivity.
Qed.

(** The constructor of [LGBPHS] puts its Gabor bank in the raw mode, so
    [extract] computes the responses of the six kernels, stores them in
    the array of [np.float32] and returns one row per kernel: the
    histograms of the cells of that kernel's stored response, joined.
    The responses are taken to have the shape of [x], and the base class
    not to set an attribute [raw_convolve]. *)
Theorem LGBPHS_extract_rows h x rs per_cell :
  base_attrs !! "raw_convolve" = None ->
  GaborFilterSki.responses_of nd_convolve Reflect x pipeline_bank rs ->
  GaborFilterSkiFacts.shaped_like x rs ->
  Forall2 (fun slice hs => cell_histograms multi_scale slice = Ok hs)
          (GaborFilterSkiFacts.stored_slices rs) per_cell ->
  exists lgbphs h',
    LGBPHS_new gabor_kernel nd_convolve asColumnMatrix base_attrs base_ns
               lbp ExtendedLBP cell_histogram h = (Ok lgbphs, h') /\
    LGBPHS_extract lgbphs x h'
    = (Ok (Arr2 (map (@concat fval) per_cell)), h') /\
    length per_cell = 6%nat.
Proof.
  intros Hb Hrs Hshape Hcells. eexists _, _.
  split; [apply (LGBPHS_new_raw h Hb) |].
  set (gabor := fresh (dom h)).
  set (d := <["filter" := VBound RawConvolve]> pipeline_dict).
  set (h' := <[gabor := d]> h).
  assert (Hd : h' !! gabor = Some d) by apply lookup_insert_eq.
  assert (Hf : d !! "filter" = Some (VBound RawConvolve))
    by apply lookup_insert_eq.
  assert (Hk : d !! "_kernels" = Some (VArrays pipeline_bank)).
  { unfold d. rewrite lookup_insert_ne by done. apply lookup_insert_eq. }
  split.
  - unfold LGBPHS_extract. simpl. unfold bind at 1.
    rewrite (extract_rebound h' gabor d RawConvolve x Hd Hf). simpl.
    unfold bind at 1.
    rewrite (GaborFilterSkiFacts.raw_convolve_spec nd_convolve base_ns
               h' gabor d pipeline_bank x rs Hd Hk Hrs Hshape).
    unfold ret at 1, lift. unfold SpatialHistogram.extract. simpl.
    unfold SpatialHistogram.spatially_enhanced_histogram. simpl.
    unfold SpatialHistogram.multi_scale_histogram.
    rewrite (SpatialHistogram.collect_Forall2 _
               (GaborFilterSkiFacts.stored_slices rs)
               (map (@concat fval) per_cell)); [reflexivity |].
    clear -Hcells.
    induction Hcells as [| r hs slices per_cell Hr _ IH]; simpl;
      constructor; [| exact IH].
    unfold SpatialHistogram.base_spatially_enhanced_histogram.
    rewrite Hr. reflexivity.
  - rewrite <- (Forall2_length _ _ _ Hcells).
    unfold GaborFilterSkiFacts.stored_slices. rewrite length_map.
    rewrite <- pipeline_bank_length. symmetry.
    exact (Forall2_length _ _ _ Hrs).
Qed.

(** ** [GaborFilterFisher] *)

(** The constructor of [GaborFilterFisher] puts its Gabor bank in the
    column mode: the Gabor stage of the instance answers [extract] with
    six rows, row [k] being the flattened response of kernel [k] as the
    array of [np.float32] stores it. The responses are taken to have as
    many entries as [x], and the base class not to set an attribute
    [convolve_to_col]. *)
Theorem GaborFilterFisher_column_mode h :
  base_attrs !! "convolve_to_col" = None ->
  exists self gabor h' ds,
    GaborFilterFisher_new gabor_kernel base_attrs base_ns h = (Ok self, h') /\
    h' !! self = Some ds /\
    ds !! "_gabor" = Some (VRef gabor) /\
    forall x rs,
      GaborFilterSki.responses_of nd_convolve Reflect x pipeline_bank rs ->
      GaborFilterSkiFacts.sized_like x rs ->
      ski_extract gabor x h'
      = (Ok (Arr2 (GaborFilterSkiFacts.stored_rows rs)), h') /\
      length (GaborFilterSkiFacts.stored_rows rs) = 6%nat.
Proof.
  intros Hb.
  unfold GaborFilterFisher_new. unfold bind at 1, alloc.
  set (self := fresh (dom h)).
  unfold bind at 1. unfold GaborFilterFisher_init.
  unfold bind at 1. unfold AbstractFeature.__init__ at 1.
  rewrite lookup_insert_eq, insert_insert_eq.
  set (h2 := <[self := base_attrs ∪ ∅]> h).
  unfold bind at 1. rewrite GaborFilterSki.new_spec.
  fold pipeline_bank. fold pipeline_dict.
  set (gabor := fresh (dom h2)).
  assert (Hgs : gabor <> self).
  { apply (fresh_neq h2 self (base_attrs ∪ ∅)). apply lookup_insert_eq. }
  unfold bind at 1. unfold setattr at 1.
  rewrite lookup_insert_ne by exact Hgs. unfold h2 at 1.
  rewrite lookup_insert_eq.
  set (ds1 := <["_gabor" := VRef gabor]> (base_attrs ∪ ∅)).
  set (h4 := <[self := ds1]> (<[gabor := pipeline_dict]> h2)).
  assert (Hself4 : h4 !! self = Some ds1) by apply lookup_insert_eq.
  assert (Hg1 : ds1 !! "_gabor" = Some (VRef gabor)) by apply lookup_insert_eq.
  assert (Hgab4 : h4 !! gabor = Some pipeline_dict).
  { unfold h4. rewrite lookup_insert_ne by (intros E; apply Hgs; now symmetry).
    apply lookup_insert_eq. }
  unfold bind at 1. rewrite (get_ref_instance _ _ _ _ _ _ Hself4 Hg1).
  unfold bind at 1. unfold getattr at 1. rewrite Hgab4. simpl.
  rewrite pipeline_dict_lookup_method by (done || exact Hb).
  rewrite class_ns_convolve_to_col.
  unfold bind at 1. rewrite (get_ref_instance _ _ _ _ _ _ Hself4 Hg1).
  unfold bind at 1. unfold setattr at 1. rewrite Hgab4.
  set (dg := <["filter" := VBound ConvolveToCol]> pipeline_dict).
  set (h5 := <[gabor := dg]> h4).
  assert (Hself5 : h5 !! self = Some ds1).
  { unfold h5. rewrite lookup_insert_ne by exact Hgs. exact Hself4. }
  unfold bind at 1. unfold Fisherfaces_new, alloc.
  set (fisher := fresh (dom h5)).
  assert (Hfs : fisher <> self) by exact (fresh_neq h5 self ds1 Hself5).
  assert (Hfg : fisher <> gabor).
  { apply (fresh_neq h5 gabor dg). apply lookup_insert_eq. }
  unfold setattr. rewrite lookup_insert_ne by exact Hfs. rewrite Hself5.
  exists self, gabor. eexists _, (<["_fisher" := VRef fisher]> ds1).
  split; [reflexivity |].
  split; [apply lookup_insert_eq |].
  split; [rewrite lookup_insert_ne by done; exact Hg1 |].
  intros x rs Hrs Hsize.
  match goal with |- context [ski_extract gabor x ?hh] => set (h' := hh) end.
  assert (Hd : h' !! gabor = Some dg).
  { unfold h'. rewrite lookup_insert_ne by (intros E; apply Hgs; now symmetry).
    rewrite lookup_insert_ne by (intros E; apply Hfg; now symmetry).
    apply lookup_insert_eq. }
  assert (Hf : dg !! "filter" = Some (VBound ConvolveToCol))
    by apply lookup_insert_eq.
  assert (Hk : dg !! "_kernels" = Some (VArrays pipeline_bank)).
  { unfold dg. rewrite lookup_insert_ne by done. apply lookup_insert_eq. }
  split.
  - rewrite (extract_rebound h' gabor dg ConvolveToCol x Hd Hf). simpl.
    unfold bind at 1.
    rewrite (GaborFilterSkiFacts.convolve_to_col_spec nd_convolve base_ns
               h' gabor dg pipeline_bank x rs Hd Hk Hrs Hsize).
    reflexivity.
  - unfold GaborFilterSkiFacts.stored_rows. rewrite length_map.
    rewrite <- pipeline_bank_length. symmetry.
    exact (Forall2_length _ _ _ Hrs).
Qed.

End Facts.

(** The bank of the pipelines for the stand-in kernel generator. *)
Lemma standin_bank :
  pipeline_bank Standin.gabor_kernel = repeat [[Fin 1]] 6.
Proof. reflexivity. Qed.

Lemma standin_responses (x : matrix) :
  GaborFilterSki.responses_of Standin.nd_convolve Reflect x
    (pipeline_bank Standin.gabor_kernel)
    (repeat (map (map (fun p => fmul (Fin 1) p)) x) 6).
Proof.
  rewrite standin_bank. unfold GaborFilterSki.responses_of.
  repeat constructor.
Qed.

Lemma LGBPHS_extract_rows_witness :
  exists lgbphs h',
    LGBPHS_new Standin.gabor_kernel Standin.nd_convolve
      Standin.asColumnMatrix ∅ ∅ unit tt SpatialHistogram.one_bin ∅
    = (Ok lgbphs, h') /\
    LGBPHS_extract lgbphs [[Fin 1]] h'
    = (Ok (Arr2 (repeat (repeat (Fin 1) 64) 6)), h').
Proof.
  destruct (LGBPHS_extract_rows Standin.gabor_kernel Standin.nd_convolve
              Standin.asColumnMatrix ∅ ∅ unit tt SpatialHistogram.one_bin
              ∅ [[Fin 1]] (repeat [[fmul (Fin 1) (Fin 1)]] 6)
              (repeat (repeat [Fin 1] 64) 6))
    as (lgbphs & h' & Hnew & Hext & _).
  - reflexivity.
  - apply (standin_responses [[Fin 1]]).
  - repeat constructor.
  - repeat constructor.
  - exists lgbphs, h'. split; [exact Hnew | exact Hext].
Defined.

Lemma GaborFilterFisher_column_mode_witness :
  exists self gabor h',
    GaborFilterFisher_new Standin.gabor_kernel ∅ ∅ ∅ = (Ok self, h') /\
    GaborFilterSki.extract Standin.nd_convolve ∅ gabor [[Fin 2; Fin 5]] h'
    = (Ok (Arr2 (repeat [float32 (fmul (Fin 1) (Fin 2));
                         float32 (fmul (Fin 1) (Fin 5))] 6)),
       h').
Proof.
  destruct (GaborFilterFisher_column_mode Standin.gabor_kernel
              Standin.nd_convolve ∅ ∅ ∅)
    as (self & gabor & h' & ds & Hnew & _ & _ & Hext).
  - reflexivity.
  - exists self, gabor, h'. split; [exact Hnew |].
    refine (proj1 (Hext [[Fin 2; Fin 5]] _
                     (standin_responses [[Fin 2; Fin 5]]) _)).
    repeat constructor.
Defined.

(** C7 on the chain that [LGBPHS()] builds: its [extract] is the
    histogram stage on what the Gabor stage returns, its [compute] the
    histogram stage on the list the Gabor stage returns. *)
Lemma chain_is_composition_witness :
  exists lgbphs h',
    LGBPHS_new Standin.gabor_kernel Standin.nd_convolve
      Standin.asColumnMatrix ∅ ∅ unit tt SpatialHistogram.one_bin ∅
    = (Ok lgbphs, h') /\
    LGBPHS_extract lgbphs [[Fin 1]] h'
    = (and_then
         (fst (GaborFilterSki.extract Standin.nd_convolve ∅
                 (fresh (dom (∅ : heap))) [[Fin 1]] h'))
         (fun a =>
            SpatialHistogram.extract unit SpatialHistogram.one_bin
              (SpatialHistogram.MultiScaleSpatialHistogram unit tt) a),
       h') /\
    LGBPHS_compute lgbphs [[[Fin 1]]; [[Fin 2]]] [0%Z; 1%Z] h'
    = (and_then
         (fst (GaborFilterSki.compute Standin.nd_convolve
                 Standin.asColumnMatrix ∅ (fresh (dom (∅ : heap)))
                 [[[Fin 1]]; [[Fin 2]]] [0%Z; 1%Z] h'))
         (fun X1 =>
            SpatialHistogram.compute unit SpatialHistogram.one_bin
              (SpatialHistogram.MultiScaleSpatialHistogram unit tt)
              X1 [0%Z; 1%Z]),
       h').
Proof.
  eexists _, _.
  split; [apply (LGBPHS_new_raw Standin.gabor_kernel Standin.nd_convolve
                   Standin.asColumnMatrix ∅ ∅ unit tt
                   SpatialHistogram.one_bin ∅); reflexivity |].
  apply (chain_is_composition
           (ski_operator Standin.nd_convolve Standin.asColumnMatrix ∅
              (fresh (dom (∅ : heap))))
           (histogram_operator unit SpatialHistogram.one_bin
              (SpatialHistogram.MultiScaleSpatialHistogram unit tt))
           [[Fin 1]] [[[Fin 1]]; [[Fin 2]]] [0%Z; 1%Z]).
  - apply ski_operator_stateless.
  - apply histogram_operator_stateless.
Defined.

End PipelineFacts.

(* ================================================================= *)
(** * [LGBPHS2] *)

Module LGBPHS2.

Local Open Scope py_scope.

(** [feats[i, :, :] = accum] stores the slices of 8-bit pixels in the
    array of [np.float32] that [GaborFilterCv2.filter] returns; every
    8-bit value is a [float32]. *)
Definition as_float32 (feats : list GaborFilterCv2.image) : ndarray :=
  Arr3 (map (map (map (fun p => Fin (IZR p)))) feats).

Section LGBPHS2.

Variable getGaborKernel :
  Z * Z -> float -> float -> float -> float -> float -> matrix.
Variable filter2D :
  GaborFilterCv2.image -> matrix -> result GaborFilterCv2.image.
Variable asColumnMatrix : list GaborFilterCv2.image -> result matrix.
Variable base_attrs : object.
Variable base_ns : object.
Variable lbp : Type.
Variable ExtendedLBP : lbp.
Variable cell_histogram : lbp -> nat * nat -> matrix -> nat -> nat -> result vector.

(** A [GaborFilterCv2] as a stage of a chain. *)
Definition cv2_operator (self : loc)
  : operator GaborFilterCv2.image ndarray :=
  {| op_compute := fun X y =>
       let* feats :=
         GaborFilterCv2.compute filter2D asColumnMatrix base_ns self X y in
       ret (map as_float32 feats);
     op_extract := fun x =>
       let* feats := GaborFilterCv2.extract filter2D base_ns self x in
       ret (as_float32 feats) |}.

(** The instance, by its one attribute. *)
Record LGBPHS2 : Type := {
  _model : operator GaborFilterCv2.image ndarray
}.

(** [LGBPHS2()]. [super(LGBPHS, self).__init__()] starts the lookup
    after [LGBPHS], so the constructor of [LGBPHS] does not run: the
    only bank built is that of [GaborFilterCv2()]. *)
Definition new : M LGBPHS2 :=
  let* gabor :=
    GaborFilterCv2.new getGaborKernel base_attrs base_ns
      GaborFilterCv2.default_orient_cnt GaborFilterCv2.default_scale_cnt in
  let lbp_stage :=
    SpatialHistogram.ConcatenatedSpatialHistogram lbp ExtendedLBP in
  ret {| _model :=
           ChainOperator (cv2_operator gabor)
             (Pipelines.histogram_operator lbp cell_histogram lbp_stage) |}.

(** [compute] and [extract], inherited from [LGBPHS]. *)
Definition compute (self : LGBPHS2) (X : list GaborFilterCv2.image)
    (y : list Z) : M (list ndarray) :=
  op_compute (_model self) X y.

Definition extract (self : LGBPHS2) (X : GaborFilterCv2.image) : M ndarray :=
  op_extract (_model self) X.




(** The stage is stateless: filtering reads the bank and writes nothing. *)
Lemma cv2_operator_stateless (self : loc) : is_stateless (cv2_operator self).
Proof.
  split.
  - intros X0 y. apply read_only_bind;
      [apply GaborFilterCv2.read_only_cv_compute |
       intros feats; apply read_only_ret].
  - intros x. apply read_only_bind;
      [apply GaborFilterCv2.read_only_cv_extract |
       intros feats; apply read_only_ret].
Qed.




End LGBPHS2.




End LGBPHS2.
